(** * ECG monitor: signal-to-decision pipeline of [main.cpp]

    A shallow embedding of the sample buffer, the feature standardizer,
    the RBF-kernel classifier, the peak-counting rate estimator and the
    alert debouncer, followed by the properties the specification states
    about them.

    Conventions.
    - C++ [int] and [size_t] values are [Z]; every such value in this
      program is bounded by a vector size, far below 2^31.
    - [unsigned long] clock readings ([millis()]) are [Z] in [0, 2^32)
      and their subtraction wraps modulo 2^32, as on the 32-bit ESP32.
    - [std::vector<float>] is [list float]; [operator[]] outside the
      vector is undefined behaviour in C++ and is [None] here.
    - [float] and [double] arithmetic is an interface ([FloatArith]) with
      two instances: IEEE-754 binary32/binary64 with round-to-nearest-even,
      each operation rounded on its own (executable, from [SpecFloat]),
      and exact arithmetic over the reals (the idealisation the
      specification's algebraic properties refer to when they say
      "within floating-point tolerance").
    - [exp] is a call into the C library: a parameter ([LibmExp]), the
      exponential of the reals in the exact instance. *)

From Stdlib Require Import ZArith List Bool Lia Reals Lra.
From Stdlib Require Import Floats.SpecFloat.
Import ListNotations.
Open Scope Z_scope.

(** ** Undefined behaviour as [option] *)

Definition bind {A B : Type} (x : option A) (k : A -> option B) : option B :=
  match x with
  | Some a => k a
  | None => None
  end.

Notation "x <- e ;; k" := (bind e (fun x => k))
  (at level 61, e at next level, right associativity).

(** ** Vectors *)

Definition zlen {A : Type} (v : list A) : Z := Z.of_nat (length v).

(** [v[i]] as an rvalue. *)
Definition vget {A : Type} (v : list A) (i : Z) : option A :=
  if i <? 0 then None else nth_error v (Z.to_nat i).

Fixpoint replace_nth {A : Type} (n : nat) (x : A) (v : list A) : list A :=
  match v, n with
  | [], _ => []
  | _ :: t, O => x :: t
  | h :: t, S n' => h :: replace_nth n' x t
  end.

(** [v[i] = x]. *)
Definition vset {A : Type} (v : list A) (i : Z) (x : A) : option (list A) :=
  if (0 <=? i) && (i <? zlen v) then Some (replace_nth (Z.to_nat i) x v)
  else None.

(** ** Counted loops

    [for_range lo hi body s] is [for (i = lo; i < hi; i++) body], the
    bound being loop-invariant as in every loop of the program. *)

Fixpoint for_loop {S : Type} (n : nat) (i : Z)
    (body : Z -> S -> option S) (s : S) : option S :=
  match n with
  | O => Some s
  | Datatypes.S n' => s' <- body i s ;; for_loop n' (i + 1) body s'
  end.

Definition for_range {S : Type} (lo hi : Z)
    (body : Z -> S -> option S) (s : S) : option S :=
  for_loop (Z.to_nat (hi - lo)) lo body s.

(** ** Arithmetic interface *)

Class FloatArith : Type := {
  float : Type;
  double : Type;
  f_add : float -> float -> float;
  f_sub : float -> float -> float;
  f_mul : float -> float -> float;
  f_div : float -> float -> float;
  f_neg : float -> float;
  f_lt : float -> float -> bool;
  d_add : double -> double -> double;
  d_mul : double -> double -> double;
  d_div : double -> double -> double;
  (** integer-to-floating conversions *)
  f_of_int : Z -> float;
  d_of_int : Z -> double;
  (** the decimal literal [p/q], a [double] constant *)
  d_lit : Z -> Z -> double;
  (** promotion and the narrowing conversion on assignment *)
  to_double : float -> double;
  to_float : double -> float
}.

(** [exp] of the C library, with its result stored in a [float]. *)
Class LibmExp (A : FloatArith) : Type := f_exp : @float A -> @float A.

(** A [float] variable initialised from a decimal literal. *)
Definition f_lit {A : FloatArith} (p q : Z) : float := to_float (d_lit p q).

Definition f_zero {A : FloatArith} : float := f_of_int 0.

(** *** IEEE-754 instance *)

Module IEEE.

Definition of_int (prec emax : Z) (z : Z) : spec_float :=
  binary_normalize prec emax z 0 false.

Definition convert (prec emax : Z) (x : spec_float) : spec_float :=
  match x with
  | S754_finite s m e => binary_normalize prec emax (cond_Zopp s (Zpos m)) e s
  | _ => x
  end.

#[export] Instance arith : FloatArith := {|
  float := spec_float;
  double := spec_float;
  f_add := SFadd 24 128;
  f_sub := SFsub 24 128;
  f_mul := SFmul 24 128;
  f_div := SFdiv 24 128;
  f_neg := SFopp;
  f_lt := SFltb;
  d_add := SFadd 53 1024;
  d_mul := SFmul 53 1024;
  d_div := SFdiv 53 1024;
  f_of_int := of_int 24 128;
  d_of_int := of_int 53 1024;
  d_lit := fun p q => SFdiv 53 1024 (of_int 53 1024 p) (of_int 53 1024 q);
  to_double := convert 53 1024;
  to_float := convert 24 128
|}.

(** Zero or finite: neither an infinity nor a NaN. *)
Definition finiteF (x : spec_float) : bool :=
  match x with
  | S754_zero _ | S754_finite _ _ _ => true
  | _ => false
  end.

(** Not a NaN, and carrying the sign bit [s]. *)
Definition signedAs (s : bool) (x : spec_float) : bool :=
  match x with
  | S754_zero s' | S754_infinity s' | S754_finite s' _ _ => Bool.eqb s s'
  | S754_nan => false
  end.

End IEEE.

(** *** Exact instance over the reals *)

Module Exact.

Definition Rltb (a b : R) : bool := if Rlt_dec a b then true else false.

#[export] Instance arith : FloatArith := {|
  float := R;
  double := R;
  f_add := Rplus;
  f_sub := Rminus;
  f_mul := Rmult;
  f_div := Rdiv;
  f_neg := Ropp;
  f_lt := Rltb;
  d_add := Rplus;
  d_mul := Rmult;
  d_div := Rdiv;
  f_of_int := IZR;
  d_of_int := IZR;
  d_lit := fun p q => Rdiv (IZR p) (IZR q);
  to_double := fun x => x;
  to_float := fun x => x
|}.

#[export] Instance libm : LibmExp arith := exp.

End Exact.

(** ** Program constants *)

Definition ECG_BUFFER_SIZE : Z := 140.
Definition SAMPLING_RATE : Z := 360.
Definition BUZZER_DURATION : Z := 500.
Definition ANOMALY_COOLDOWN : Z := 3000.

(** ** The classifier model *)

Record SVMModel {A : FloatArith} : Type := {
  numSupportVectors : Z;
  gamma : float;
  bias : float;
  supportVectors : list float;
  dualCoefficients : list float;
  featureMeans : list float;
  featureStds : list float
}.

(** The shape invariant of the model for [M = numSupportVectors] and
    [N = ECG_BUFFER_SIZE]. *)
Definition wellShaped {A : FloatArith} (m : SVMModel) : Prop :=
  0 <= numSupportVectors m /\
  zlen (supportVectors m) = numSupportVectors m * ECG_BUFFER_SIZE /\
  zlen (dualCoefficients m) = numSupportVectors m /\
  zlen (featureMeans m) = ECG_BUFFER_SIZE /\
  zlen (featureStds m) = ECG_BUFFER_SIZE.

(** The vectors of the model are at least as long as the loops of
    [detectAnomaly] read them. *)
Definition longEnough {A : FloatArith} (m : SVMModel) : Prop :=
  numSupportVectors m * ECG_BUFFER_SIZE <= zlen (supportVectors m) /\
  numSupportVectors m <= zlen (dualCoefficients m) /\
  ECG_BUFFER_SIZE <= zlen (featureMeans m) /\
  ECG_BUFFER_SIZE <= zlen (featureStds m).

Section Classifier.
Context {A : FloatArith} {E : LibmExp A}.

(** [standardizeFeatures]: in-place z-score of every entry. *)
Definition standardizeFeatures (svmModel : SVMModel) (features : list float)
    : option (list float) :=
  for_range 0 (zlen features)
    (fun i features =>
       x <- vget features i ;;
       m <- vget (featureMeans svmModel) i ;;
       s <- vget (featureStds svmModel) i ;;
       vset features i (f_div (f_sub x m) s))
    features.

(** [rbfKernel]: exp(-gamma * ||x1 - x2||^2), the loop running over
    [x1.size()]. *)
Definition rbfKernel (x1 x2 : list float) (gamma : float) : option float :=
  squaredDistance <-
    for_range 0 (zlen x1)
      (fun i squaredDistance =>
         a <- vget x1 i ;;
         b <- vget x2 i ;;
         let diff := f_sub a b in
         Some (f_add squaredDistance (f_mul diff diff)))
      (f_lit 0 1) ;;
  Some (f_exp (f_mul (f_neg gamma) squaredDistance)).

(** The inner loop of [detectAnomaly] copying support vector [i] out of
    the flattened table. *)
Definition extractSupportVector (svmModel : SVMModel) (i : Z)
    : option (list float) :=
  for_range 0 ECG_BUFFER_SIZE
    (fun j supportVector =>
       x <- vget (supportVectors svmModel) (i * ECG_BUFFER_SIZE + j) ;;
       vset supportVector j x)
    (repeat f_zero (Z.to_nat ECG_BUFFER_SIZE)).

(** The decision value accumulated by [detectAnomaly]. *)
Definition decisionValue (svmModel : SVMModel) (ecgData : list float)
    : option float :=
  features <- standardizeFeatures svmModel ecgData ;;
  for_range 0 (numSupportVectors svmModel)
    (fun i decision =>
       supportVector <- extractSupportVector svmModel i ;;
       kernelValue <- rbfKernel features supportVector (gamma svmModel) ;;
       c <- vget (dualCoefficients svmModel) i ;;
       Some (f_add decision (f_mul c kernelValue)))
    (bias svmModel).

(** [detectAnomaly]: [true] is Anomalous. *)
Definition detectAnomaly (svmModel : SVMModel) (ecgData : list float)
    : option bool :=
  decision <- decisionValue svmModel ecgData ;;
  Some (f_lt decision (f_of_int 0)).

End Classifier.

(** ** Rate and energy estimators *)

Section Estimators.
Context {A : FloatArith}.

(** One iteration of the peak-detection loop; the state is
    [(peakCount, rising)]. *)
Definition peakStep (threshold : float) (ecgData : list float) (i : Z)
    (st : Z * bool) : option (Z * bool) :=
  let '(peakCount, rising) := st in
  cur <- vget ecgData i ;;
  prev <- vget ecgData (i - 1) ;;
  if negb rising && f_lt prev cur && f_lt threshold cur then
    Some (peakCount, true)
  else if rising && f_lt cur prev then
    Some (peakCount + 1, false)
  else
    Some (peakCount, rising).

(** The loop of [calculateHeartRate]. *)
Definition countPeaks (ecgData : list float) : option Z :=
  st <- for_range 1 (zlen ecgData) (peakStep (f_lit 3 2) ecgData) (0, false) ;;
  Some (fst st).

(** Beats per minute from a peak count: [(peakCount * 60.0) /
    timeWindowInSeconds], the window length being computed in [float]
    and the quotient in [double]. *)
Definition bpmOfPeaks (peakCount : Z) : float :=
  let timeWindowInSeconds :=
    f_div (f_of_int ECG_BUFFER_SIZE) (f_of_int SAMPLING_RATE) in
  to_float (d_div (d_mul (d_of_int peakCount) (d_lit 60 1))
                  (to_double timeWindowInSeconds)).

Definition calculateHeartRate (ecgData : list float) : option float :=
  peakCount <- countPeaks ecgData ;;
  Some (bpmOfPeaks peakCount).

Definition calculateCalories (heartRate : float) (elapsedMinutes : Z) : float :=
  let factor := f_lit 1 10 in
  f_mul (f_mul heartRate (f_of_int elapsedMinutes)) factor.

(** The smoothing statement of [processECGData]. *)
Definition smoothHeartRate (heartRate newHeartRate : float) : float :=
  if f_lt (f_of_int 0) newHeartRate then
    to_float (d_add (d_mul (d_lit 7 10) (to_double heartRate))
                    (d_mul (d_lit 3 10) (to_double newHeartRate)))
  else heartRate.

End Estimators.

(** ** Global state, clock and outputs *)

(** Subtraction of two [unsigned long] values. *)
Definition usub (a b : Z) : Z := (a - b) mod 2 ^ 32.

Record State {A : FloatArith} : Type := {
  ecgBuffer : list float;
  bufferIndex : Z;
  lastSampleTime : Z;
  heartRate : float;
  dailyCalories : float;
  anomalyDetected : bool;
  lastAnomalyTime : Z;
  startTime : Z;
  lastCalorieUpdate : Z;
  svmModel : SVMModel;
  buzzerPin : bool
}.

(** Messages broadcast to the WebSocket clients. *)
Inductive Event {A : FloatArith} : Type :=
  | WsAlert
  | WsEcg (value : float)
  | WsCalories (value heartRate : float)
  | WsAnomaly (timestamp : Z).

(** The three successive [millis()] readings of the alert block of
    [processECGData]: in the test, in the assignment to
    [lastAnomalyTime], and in the notification. *)
Record AlertClock : Type := {
  ms_test : Z;
  ms_latch : Z;
  ms_stamp : Z
}.

(** The three readings of the alert block all taken at [t]. *)
Definition clockAt (t : Z) : AlertClock :=
  {| ms_test := t; ms_latch := t; ms_stamp := t |}.

Section Pipeline.
Context {A : FloatArith} {E : LibmExp A}.

(** The reconstruction loop at the head of [processECGData]. *)
Definition reconstructWindow (ecgBuffer : list float) (bufferIndex : Z)
    : option (list float) :=
  for_range 0 ECG_BUFFER_SIZE
    (fun i currentECG =>
       let idx := Z.rem (bufferIndex + i) ECG_BUFFER_SIZE in
       x <- vget ecgBuffer idx ;;
       vset currentECG i x)
    (repeat f_zero (Z.to_nat ECG_BUFFER_SIZE)).

(** The alert block of [processECGData]. *)
Definition alertStep (isAnomaly : bool) (clk : AlertClock) (st : State)
    : State * list Event :=
  if isAnomaly && (usub (ms_test clk) (lastAnomalyTime st) >? ANOMALY_COOLDOWN)
  then
    ({| ecgBuffer := ecgBuffer st;
        bufferIndex := bufferIndex st;
        lastSampleTime := lastSampleTime st;
        heartRate := heartRate st;
        dailyCalories := dailyCalories st;
        anomalyDetected := true;
        lastAnomalyTime := ms_latch clk;
        startTime := startTime st;
        lastCalorieUpdate := lastCalorieUpdate st;
        svmModel := svmModel st;
        buzzerPin := true |},
     [WsAnomaly (ms_stamp clk)])
  else (st, []).

Definition setHeartRate (h : float) (st : State) : State :=
  {| ecgBuffer := ecgBuffer st;
     bufferIndex := bufferIndex st;
     lastSampleTime := lastSampleTime st;
     heartRate := h;
     dailyCalories := dailyCalories st;
     anomalyDetected := anomalyDetected st;
     lastAnomalyTime := lastAnomalyTime st;
     startTime := startTime st;
     lastCalorieUpdate := lastCalorieUpdate st;
     svmModel := svmModel st;
     buzzerPin := buzzerPin st |}.

Definition processECGData (clk : AlertClock) (st : State)
    : option (State * list Event) :=
  currentECG <- reconstructWindow (ecgBuffer st) (bufferIndex st) ;;
  newHeartRate <- calculateHeartRate currentECG ;;
  let st1 := setHeartRate (smoothHeartRate (heartRate st) newHeartRate) st in
  isAnomaly <- detectAnomaly (svmModel st1) currentECG ;;
  Some (alertStep isAnomaly clk st1).

(** The two buffer statements of [loop]: store at the cursor, advance
    the cursor. *)
Definition bufferStore (voltage : float) (st : State) : option State :=
  buf <- vset (ecgBuffer st) (bufferIndex st) voltage ;;
  Some {| ecgBuffer := buf;
          bufferIndex := Z.rem (bufferIndex st + 1) ECG_BUFFER_SIZE;
          lastSampleTime := lastSampleTime st;
          heartRate := heartRate st;
          dailyCalories := dailyCalories st;
          anomalyDetected := anomalyDetected st;
          lastAnomalyTime := lastAnomalyTime st;
          startTime := startTime st;
          lastCalorieUpdate := lastCalorieUpdate st;
          svmModel := svmModel st;
          buzzerPin := buzzerPin st |}.

(** The sample buffer seen as the specification's [push]: the two
    buffer statements, and the window [processECGData] reconstructs when
    the cursor has wrapped to zero. *)
Definition push (voltage : float) (st : State)
    : option (State * option (list float)) :=
  st' <- bufferStore voltage st ;;
  if bufferIndex st' =? 0 then
    w <- reconstructWindow (ecgBuffer st') (bufferIndex st') ;;
    Some (st', Some w)
  else Some (st', None).

(** The ADC reading converted to volts. *)
Definition adcVoltage (ecgValue : Z) : float :=
  to_float (d_mul (d_of_int ecgValue) (d_div (d_lit 33 10) (d_lit 4095 1))).

(** The sampling branch of [loop], from the ADC reading on. *)
Definition sampleTick (ecgValue : Z) (clk : AlertClock) (st : State)
    : option (State * list Event) :=
  let voltage := adcVoltage ecgValue in
  st1 <- bufferStore voltage st ;;
  let stream :=
    if Z.rem (bufferIndex st1) 5 =? 0 then [WsEcg voltage] else [] in
  if bufferIndex st1 =? 0 then
    r <- processECGData clk st1 ;;
    Some (fst r, stream ++ snd r)
  else Some (st1, stream).

(** The buzzer timeout of [loop]. *)
Definition buzzerTimeout (now : Z) (st : State) : State :=
  if anomalyDetected st && (usub now (lastAnomalyTime st) >? BUZZER_DURATION)
  then
    {| ecgBuffer := ecgBuffer st;
       bufferIndex := bufferIndex st;
       lastSampleTime := lastSampleTime st;
       heartRate := heartRate st;
       dailyCalories := dailyCalories st;
       anomalyDetected := false;
       lastAnomalyTime := lastAnomalyTime st;
       startTime := startTime st;
       lastCalorieUpdate := lastCalorieUpdate st;
       svmModel := svmModel st;
       buzzerPin := false |}
  else st.

End Pipeline.

(** ** Start-up *)

Section Setup.
Context {A : FloatArith}.

(** [setupSVMModel]: the vectors are resized (zero-filled) and then
    populated by index. *)
Definition setupSVMModel : option SVMModel :=
  let numSupportVectors := 50 in
  let gamma := f_lit 1 100 in
  let bias := f_lit (-1) 2 in
  let supportVectors :=
    repeat f_zero (Z.to_nat (numSupportVectors * ECG_BUFFER_SIZE)) in
  let dualCoefficients := repeat f_zero (Z.to_nat numSupportVectors) in
  let featureMeans := repeat f_zero (Z.to_nat ECG_BUFFER_SIZE) in
  let featureStds := repeat f_zero (Z.to_nat ECG_BUFFER_SIZE) in
  ms <- for_range 0 ECG_BUFFER_SIZE
          (fun i ms =>
             means <- vset (fst ms) i (f_lit 0 1) ;;
             stds <- vset (snd ms) i (f_lit 1 1) ;;
             Some (means, stds))
          (featureMeans, featureStds) ;;
  cs <- for_range 0 numSupportVectors
          (fun i cs =>
             coefs <- vset (fst cs) i
                        (if Z.rem i 2 =? 0 then f_lit 1 1 else f_lit (-1) 1) ;;
             svs <- for_range 0 ECG_BUFFER_SIZE
                      (fun j svs =>
                         vset svs (i * ECG_BUFFER_SIZE + j)
                           (to_float (d_mul (d_mul (d_lit 1 10) (d_of_int i))
                                            (d_of_int j))))
                      (snd cs) ;;
             Some (coefs, svs))
          (dualCoefficients, supportVectors) ;;
  Some {| numSupportVectors := numSupportVectors;
          gamma := gamma;
          bias := bias;
          supportVectors := snd cs;
          dualCoefficients := fst cs;
          featureMeans := fst ms;
          featureStds := snd ms |}.

(** The globals as initialised, with a given model installed. *)
Definition bootState (m : SVMModel) (now : Z) : State :=
  {| ecgBuffer := repeat (f_lit 0 1) (Z.to_nat ECG_BUFFER_SIZE);
     bufferIndex := 0;
     lastSampleTime := 0;
     heartRate := f_lit 0 1;
     dailyCalories := f_lit 0 1;
     anomalyDetected := false;
     lastAnomalyTime := 0;
     startTime := now;
     lastCalorieUpdate := now;
     svmModel := m;
     buzzerPin := false |}.


End Setup.

(** ** The main loop *)

Definition SAMPLE_INTERVAL : Z := Z.quot 1000000 SAMPLING_RATE.
Definition CALORIE_UPDATE_INTERVAL : Z := 60000.

(** What one iteration of [loop] reads from its environment. *)
Record LoopInput : Type := {
  leadsOff : bool;
  us_now : Z;
  ecgValue : Z;
  alertClock : AlertClock;
  ms_buzzer : Z;
  ms_calTest : Z;
  ms_calElapsed : Z;
  ms_calLatch : Z
}.

Section Loop.
Context {A : FloatArith} {E : LibmExp A}.

Definition setLastSampleTime (t : Z) (st : State) : State :=
  {| ecgBuffer := ecgBuffer st;
     bufferIndex := bufferIndex st;
     lastSampleTime := t;
     heartRate := heartRate st;
     dailyCalories := dailyCalories st;
     anomalyDetected := anomalyDetected st;
     lastAnomalyTime := lastAnomalyTime st;
     startTime := startTime st;
     lastCalorieUpdate := lastCalorieUpdate st;
     svmModel := svmModel st;
     buzzerPin := buzzerPin st |}.

(** The calorie block of [loop]. *)
Definition calorieUpdate (inp : LoopInput) (st : State) : State * list Event :=
  if usub (ms_calTest inp) (lastCalorieUpdate st) >=? CALORIE_UPDATE_INTERVAL
  then
    let elapsedMinutes :=
      Z.quot (usub (ms_calElapsed inp) (startTime st)) 60000 in
    let c := calculateCalories (heartRate st) elapsedMinutes in
    ({| ecgBuffer := ecgBuffer st;
        bufferIndex := bufferIndex st;
        lastSampleTime := lastSampleTime st;
        heartRate := heartRate st;
        dailyCalories := c;
        anomalyDetected := anomalyDetected st;
        lastAnomalyTime := lastAnomalyTime st;
        startTime := startTime st;
        lastCalorieUpdate := ms_calLatch inp;
        svmModel := svmModel st;
        buzzerPin := buzzerPin st |},
     [WsCalories c (heartRate st)])
  else (st, []).

Definition loop (inp : LoopInput) (st : State) : option (State * list Event) :=
  if leadsOff inp then Some (st, [WsAlert])
  else
    r1 <- (if usub (us_now inp) (lastSampleTime st) >=? SAMPLE_INTERVAL then
             sampleTick (ecgValue inp) (alertClock inp)
               (setLastSampleTime (us_now inp) st)
           else Some (st, [])) ;;
    let st2 := buzzerTimeout (ms_buzzer inp) (fst r1) in
    let r3 := calorieUpdate inp st2 in
    Some (fst r3, snd r1 ++ snd r3).

(** A run of [loop] over successive inputs, collecting the messages. *)
Fixpoint run (inps : list LoopInput) (st : State)
    : option (State * list Event) :=
  match inps with
  | [] => Some (st, [])
  | inp :: rest =>
      r <- loop inp st ;;
      r' <- run rest (fst r) ;;
      Some (fst r', snd r ++ snd r')
  end.

End Loop.

(** * The specification's formulas

    Definitions written from the wording of the specification, to be
    compared with the loops above. *)

Section SpecFormulas.
Context {A : FloatArith} {E : LibmExp A}.

(** Standardization: for each dimension [i],
    [(window[i] - mean[i]) / std[i]]. *)
Fixpoint spec_standardize (window mean std : list float) : list float :=
  match window, mean, std with
  | x :: window', m :: mean', s :: std' =>
      f_div (f_sub x m) s :: spec_standardize window' mean' std'
  | _, _, _ => []
  end.

(** One term of the squared Euclidean distance added to the sum. *)
Definition sq_acc (acc : float) (p : float * float) : float :=
  f_add acc (f_mul (f_sub (fst p) (snd p)) (f_sub (fst p) (snd p))).

(** Squared Euclidean distance, summed over the dimensions in order. *)
Definition spec_sqdist (x y : list float) : float :=
  fold_left sq_acc (combine x y) (f_lit 0 1).

(** The kernel [K(x, y) = exp(-gamma * ||x - y||^2)]. *)
Definition spec_kernel (gamma : float) (x y : list float) : float :=
  f_exp (f_mul (f_neg gamma) (spec_sqdist x y)).

(** Support vector [k] of the flattened table. *)
Definition spec_supportVector (m : SVMModel) (k : nat) : list float :=
  firstn (Z.to_nat ECG_BUFFER_SIZE)
    (skipn (k * Z.to_nat ECG_BUFFER_SIZE) (supportVectors m)).

(** Decision score: the bias plus, for each of the [M] support vectors
    in order, [coefficient[k] * K(standardizedVector, supportVector[k])]. *)
Definition spec_score (m : SVMModel) (window : list float) : float :=
  let z := spec_standardize window (featureMeans m) (featureStds m) in
  fold_left
    (fun acc k =>
       f_add acc (f_mul (nth k (dualCoefficients m) f_zero)
                        (spec_kernel (gamma m) z (spec_supportVector m k))))
    (seq 0 (Z.to_nat (numSupportVectors m)))
    (bias m).

End SpecFormulas.

(** * The specification's peak counter and smoothing driver *)

Section SpecEstimators.
Context {A : FloatArith}.

(** The peak counter in the specification's words: walking the samples
    after [prev], a rise begins when a sample strictly exceeds its
    predecessor and the threshold while not already rising; a peak is
    counted, and the rise ends, when a later sample strictly decreases. *)
Fixpoint spec_peaks (threshold prev : float) (rest : list float)
    (rising : bool) : Z :=
  match rest with
  | [] => 0
  | cur :: rest' =>
      if rising then
        if f_lt cur prev then 1 + spec_peaks threshold cur rest' false
        else spec_peaks threshold cur rest' true
      else
        if f_lt prev cur && f_lt threshold cur
        then spec_peaks threshold cur rest' true
        else spec_peaks threshold cur rest' false
  end.

Definition spec_peakCount (window : list float) : Z :=
  match window with
  | [] => 0
  | first :: rest => spec_peaks (f_lit 3 2) first rest false
  end.


End SpecEstimators.

(** * Drivers over sequences of inputs *)

Section Drivers.
Context {A : FloatArith} {E : LibmExp A}.

(** Successive pushes, with what each one returns. *)
Fixpoint pushAll (samples : list float) (st : State)
    : option (State * list (option (list float))) :=
  match samples with
  | [] => Some (st, [])
  | v :: rest =>
      r <- push v st ;;
      r' <- pushAll rest (fst r) ;;
      Some (fst r', snd r :: snd r')
  end.

(** The buffer read from the cursor round: oldest sample first. *)
Definition chronological (st : State) : list float :=
  skipn (Z.to_nat (bufferIndex st)) (ecgBuffer st) ++
  firstn (Z.to_nat (bufferIndex st)) (ecgBuffer st).

(** The buffer has its capacity and the cursor is inside it. *)
Definition bufferOk (st : State) : Prop :=
  zlen (ecgBuffer st) = ECG_BUFFER_SIZE /\
  0 <= bufferIndex st < ECG_BUFFER_SIZE.

End Drivers.

(** * The alert debouncer as a machine over decisions and clock readings *)

Section Debouncer.
Context {A : FloatArith}.

(** What reaches the alert state in one iteration of [loop]: a
    classifier decision with its clock readings, or the buzzer check
    with its own reading. *)
Inductive AlertInput : Type :=
  | Classified (isAnomaly : bool) (clk : AlertClock)
  | BuzzerCheck (now : Z).

Definition alertInputStep (inp : AlertInput) (st : State)
    : State * list Event :=
  match inp with
  | Classified isAnomaly clk => alertStep isAnomaly clk st
  | BuzzerCheck now => (buzzerTimeout now st, [])
  end.

Fixpoint alertRun (inps : list AlertInput) (st : State)
    : State * list Event :=
  match inps with
  | [] => (st, [])
  | inp :: rest =>
      let r := alertInputStep inp st in
      let r' := alertRun rest (fst r) in
      (fst r', snd r ++ snd r')
  end.

Definition isAnomalyEvent (e : Event) : bool :=
  match e with
  | WsAnomaly _ => true
  | _ => false
  end.

(** Number of anomaly notifications among the messages. *)
Definition notifications (evs : list Event) : nat :=
  length (filter isAnomalyEvent evs).

(** The clock readings of the classifications are taken in program
    order from a non-decreasing clock and lie in [[lo, hi]]. *)
Fixpoint clocksWithin (lo hi : Z) (inps : list AlertInput) : Prop :=
  match inps with
  | [] => True
  | Classified _ clk :: rest =>
      lo <= ms_test clk /\ ms_test clk <= ms_latch clk /\ ms_latch clk <= hi /\
      clocksWithin (ms_latch clk) hi rest
  | BuzzerCheck _ :: rest => clocksWithin lo hi rest
  end.

(** The alert state as at boot: no trigger recorded, alert off. *)
Definition neverTriggered (st : State) : Prop :=
  lastAnomalyTime st = 0 /\ anomalyDetected st = false /\ buzzerPin st = false.

End Debouncer.

(** What every stage of [loop] relies on: the buffer in order and the
    model well shaped. *)
Definition pipelineOk {A : FloatArith} (st : State) : Prop :=
  bufferOk st /\ wellShaped (svmModel st).

(** * Concrete inputs used in the examples below *)

Module Examples.

(** binary32: a model over two dimensions with means 0 and deviations 1. *)
Definition twoDimModel : @SVMModel IEEE.arith :=
  {| numSupportVectors := 0;
     gamma := f_lit 1 100;
     bias := f_lit (-1) 2;
     supportVectors := [];
     dualCoefficients := [];
     featureMeans := [f_of_int 0; f_of_int 0];
     featureStds := [f_of_int 1; f_of_int 1] |}.

(** binary32: one dimension with mean 0.3 and deviation 3. *)
Definition oneDimModel : @SVMModel IEEE.arith :=
  {| numSupportVectors := 0;
     gamma := f_lit 1 100;
     bias := f_lit (-1) 2;
     supportVectors := [];
     dualCoefficients := [];
     featureMeans := [f_lit 3 10];
     featureStds := [f_of_int 3] |}.




(** binary32: [N/2] pairs (low, high) = (0.0, 2.0), and the same pairs
    in the order (high, low). *)
Definition lowHighWindow : list (@float IEEE.arith) :=
  concat (repeat [f_of_int 0; f_of_int 2] 70).

Definition highLowWindow : list (@float IEEE.arith) :=
  concat (repeat [f_of_int 2; f_of_int 0] 70).

(** Exact arithmetic: a well-shaped model with two support vectors,
    all zeros and all ones, weighted 1 and -1. *)
Definition twoVectorModel : @SVMModel Exact.arith :=
  @Build_SVMModel Exact.arith
    2 (1 / 100)%R (- (1 / 2))%R
    (repeat 0%R 140 ++ repeat 1%R 140) [1%R; (-1)%R]
    (repeat 0%R 140) (repeat 1%R 140).

(** Exact arithmetic: a well-shaped model without support vectors and
    with bias -1/2, for which every window is Anomalous. *)
Definition alwaysAnomalousModel : @SVMModel Exact.arith :=
  @Build_SVMModel Exact.arith
    0 (1 / 100)%R (- (1 / 2))%R [] [] (repeat 0%R 140) (repeat 1%R 140).



(** binary32: the largest finite number. *)
Definition maxFloat : @float IEEE.arith := SFmax_float 24 128.

(** A library [exp] known only at the arguments where the C standard
    (Annex F) fixes its value: [exp(+-0) = 1], [exp(-inf) = +0],
    [exp(+inf) = +inf]; any other argument is not modelled here (NaN). *)
Definition annexF_exp : LibmExp IEEE.arith :=
  fun x =>
    match x with
    | S754_zero _ => @f_of_int IEEE.arith 1
    | S754_infinity true => S754_zero false
    | S754_infinity false => S754_infinity false
    | _ => S754_nan
    end.

(** The first 140 iterations of [loop] after boot: the leads are
    attached, a sample is due at each iteration ([k * 2778]
    microseconds), and the millisecond clock reads the same instant, so
    that the first window completes 388 ms after boot. *)
Definition bootInputs : list LoopInput :=
  map (fun k : nat =>
         let ms := Z.of_nat k * 2778 / 1000 in
         {| leadsOff := false;
            us_now := Z.of_nat k * 2778;
            ecgValue := 2048;
            alertClock := clockAt ms;
            ms_buzzer := ms;
            ms_calTest := ms;
            ms_calElapsed := ms;
            ms_calLatch := ms |})
      (seq 1 140).

End Examples.

(** * Properties *)

(** ** Vectors and loops *)

Lemma bind_Some {X Y : Type} (x : option X) (k : X -> option Y) (y : Y) :
  bind x k = Some y <-> exists a, x = Some a /\ k a = Some y.
Proof.
  destruct x as [a|]; simpl; split.
  - intros H; exists a; auto.
  - intros [a' [Ha Hk]]; inversion Ha; subst; exact Hk.
  - discriminate.
  - intros [a' [Ha _]]; discriminate.
Qed.

Lemma zlen_nonneg {X : Type} (v : list X) : 0 <= zlen v.
Proof. unfold zlen; lia. Qed.

Lemma zlen_repeat {X : Type} (x : X) (n : Z) :
  0 <= n -> zlen (repeat x (Z.to_nat n)) = n.
Proof. intros Hn; unfold zlen; rewrite repeat_length; lia. Qed.

Lemma vget_None {X : Type} (v : list X) (i : Z) :
  zlen v <= i -> vget v i = None.
Proof.
  unfold vget, zlen; intros Hi.
  destruct (Z.ltb_spec i 0); [reflexivity|].
  apply nth_error_None; lia.
Qed.

Lemma vget_nth {X : Type} (v : list X) (i : Z) (d : X) :
  0 <= i < zlen v -> vget v i = Some (nth (Z.to_nat i) v d).
Proof.
  unfold vget, zlen; intros Hi.
  destruct (Z.ltb_spec i 0); [lia|].
  apply nth_error_nth'; lia.
Qed.

Lemma vget_to_nat {X : Type} (v : list X) (i : Z) :
  0 <= i -> vget v i = nth_error v (Z.to_nat i).
Proof.
  intros Hi; unfold vget. destruct (Z.ltb_spec i 0); [lia | reflexivity].
Qed.

Lemma replace_nth_length {X : Type} (n : nat) (x : X) (v : list X) :
  length (replace_nth n x v) = length v.
Proof.
  revert n; induction v as [|h t IH]; intros [|n]; simpl; auto.
Qed.

Lemma replace_nth_app {X : Type} (l1 : list X) (y x : X) (l2 : list X) :
  replace_nth (length l1) x (l1 ++ y :: l2) = l1 ++ x :: l2.
Proof.
  induction l1 as [|h t IH]; simpl; [reflexivity | now rewrite IH].
Qed.

Lemma vset_Some {X : Type} (v : list X) (i : Z) (x : X) :
  0 <= i < zlen v -> vset v i x = Some (replace_nth (Z.to_nat i) x v).
Proof.
  intros Hi; unfold vset.
  destruct (Z.leb_spec 0 i); [|lia].
  destruct (Z.ltb_spec i (zlen v)); [reflexivity | lia].
Qed.

Lemma vget_app_mid {X : Type} (l1 : list X) (x : X) (l2 : list X) :
  vget (l1 ++ x :: l2) (zlen l1) = Some x.
Proof.
  unfold vget, zlen.
  destruct (Z.ltb_spec (Z.of_nat (length l1)) 0); [lia|].
  rewrite Nat2Z.id, nth_error_app2 by lia.
  now rewrite Nat.sub_diag.
Qed.

Lemma vset_app_mid {X : Type} (l1 : list X) (y x : X) (l2 : list X) :
  vset (l1 ++ y :: l2) (zlen l1) x = Some (l1 ++ x :: l2).
Proof.
  rewrite vset_Some.
  - unfold zlen; now rewrite Nat2Z.id, replace_nth_app.
  - unfold zlen; rewrite length_app; simpl; lia.
Qed.

Lemma for_loop_S {S : Type} (n : nat) (i : Z)
    (body : Z -> S -> option S) (s : S) :
  for_loop (Datatypes.S n) i body s =
  (s' <- body i s ;; for_loop n (i + 1) body s').
Proof. reflexivity. Qed.

(** Unrolling a loop at its last iteration. *)
Lemma for_loop_snoc {S : Type} (n : nat) (i : Z)
    (body : Z -> S -> option S) (s : S) :
  for_loop (Datatypes.S n) i body s =
  (s' <- for_loop n i body s ;; body (i + Z.of_nat n) s').
Proof.
  revert i s; induction n as [|n IH]; intros i s.
  - simpl. replace (i + 0) with i by lia.
    destruct (body i s); reflexivity.
  - rewrite for_loop_S, (for_loop_S n).
    destruct (body i s) as [s1|]; [|reflexivity].
    unfold bind at 1 3. rewrite IH.
    replace (i + 1 + Z.of_nat n) with (i + Z.of_nat (Datatypes.S n)) by lia.
    reflexivity.
Qed.

(** The invariant rule for a counted loop: an invariant established at
    [lo] and carried by every iteration that the body completes holds at
    [hi], and the loop completes. *)
Lemma for_range_inv {S : Type} (P : Z -> S -> Prop) (lo hi : Z)
    (body : Z -> S -> option S) (s : S) :
  lo <= hi ->
  P lo s ->
  (forall i t, lo <= i < hi -> P i t ->
     exists t', body i t = Some t' /\ P (i + 1) t') ->
  exists s', for_range lo hi body s = Some s' /\ P hi s'.
Proof.
  intros Hle H0 Hstep; unfold for_range.
  assert (Hgen : forall n, (n <= Z.to_nat (hi - lo))%nat ->
            exists s', for_loop n lo body s = Some s' /\ P (lo + Z.of_nat n) s').
  { induction n as [|n IH]; intros Hn.
    - exists s; split; [reflexivity|]. now replace (lo + Z.of_nat 0) with lo by lia.
    - destruct IH as [s1 [Hs1 HP]]; [lia|].
      destruct (Hstep (lo + Z.of_nat n) s1) as [s2 [Hs2 HP2]]; [lia|exact HP|].
      exists s2; split.
      + rewrite for_loop_snoc, Hs1; exact Hs2.
      + now replace (lo + Z.of_nat (Datatypes.S n)) with (lo + Z.of_nat n + 1) by lia. }
  destruct (Hgen (Z.to_nat (hi - lo))) as [s' [Hs' HP]]; [lia|].
  exists s'; split; [exact Hs'|].
  now replace (lo + Z.of_nat (Z.to_nat (hi - lo))) with hi in HP by lia.
Qed.

(** A loop whose body cannot complete at some index of its range does
    not complete. *)
Lemma for_range_stuck {S : Type} (lo hi k : Z)
    (body : Z -> S -> option S) (s : S) :
  lo <= k < hi ->
  (forall t, body k t = None) ->
  for_range lo hi body s = None.
Proof.
  intros Hk Hnone; unfold for_range.
  assert (Hgen : forall n i t, i <= k < i + Z.of_nat n ->
            for_loop n i body t = None).
  { induction n as [|n IH]; intros i t Hi; [lia|].
    simpl. destruct (Z.eq_dec i k) as [->|Hne].
    - now rewrite Hnone.
    - destruct (body i t); simpl; [apply IH; lia | reflexivity]. }
  apply Hgen; lia.
Qed.

Lemma for_range_empty {S : Type} (lo hi : Z)
    (body : Z -> S -> option S) (s : S) :
  hi <= lo -> for_range lo hi body s = Some s.
Proof.
  intros H; unfold for_range.
  replace (Z.to_nat (hi - lo)) with 0%nat by lia; reflexivity.
Qed.

Lemma skipn_nth_error {X : Type} (l : list X) (k : nat) (x : X) :
  nth_error l k = Some x -> skipn k l = x :: skipn (S k) l.
Proof.
  revert k; induction l as [|h t IH]; intros [|k]; simpl; try discriminate.
  - intros H; inversion H; reflexivity.
  - apply IH.
Qed.

Lemma firstn_nth_error {X : Type} (l : list X) (k : nat) (x : X) :
  nth_error l k = Some x -> firstn (S k) l = firstn k l ++ [x].
Proof.
  revert k; induction l as [|h t IH]; intros [|k]; simpl; try discriminate.
  - intros H; inversion H; reflexivity.
  - intros H; f_equal; apply (IH k H).
Qed.

Lemma nth_error_in_range {X : Type} (l : list X) (k : nat) :
  (k < length l)%nat -> exists x, nth_error l k = Some x.
Proof.
  intros Hk; destruct (nth_error l k) eqn:Hn; [eauto|].
  apply nth_error_None in Hn; lia.
Qed.

(** A loop that overwrites slot [k] at iteration [k] turns [init] into
    [target] when each iteration installs the [k]-th entry of [target]. *)
Lemma fill_loop {X : Type} (body : Z -> list X -> option (list X))
    (init target : list X) :
  length init = length target ->
  (forall k : nat, (k < length target)%nat ->
     body (Z.of_nat k) (firstn k target ++ skipn k init) =
     Some (firstn (S k) target ++ skipn (S k) init)) ->
  for_range 0 (zlen target) body init = Some target.
Proof.
  intros Hlen Hstep.
  destruct (for_range_inv
              (fun i t => t = firstn (Z.to_nat i) target ++ skipn (Z.to_nat i) init)
              0 (zlen target) body init) as [s' [Hs' HP]].
  - apply zlen_nonneg.
  - reflexivity.
  - intros i t Hi ->.
    exists (firstn (S (Z.to_nat i)) target ++ skipn (S (Z.to_nat i)) init).
    split.
    + rewrite <- (Hstep (Z.to_nat i)) by (unfold zlen in Hi; lia).
      now rewrite Z2Nat.id by lia.
    + now replace (Z.to_nat (i + 1)) with (S (Z.to_nat i)) by lia.
  - rewrite Hs', HP. unfold zlen. rewrite Nat2Z.id.
    rewrite firstn_all, <- Hlen, skipn_all, app_nil_r. reflexivity.
Qed.

(** The shape of the vector inside [fill_loop] at iteration [k]. *)
Lemma fill_loop_shape {X : Type} (init target : list X) (k : nat) :
  length init = length target -> (k < length target)%nat ->
  exists x y,
    nth_error init k = Some x /\ nth_error target k = Some y /\
    firstn k target ++ skipn k init = firstn k target ++ x :: skipn (S k) init /\
    firstn (S k) target ++ skipn (S k) init =
      firstn k target ++ y :: skipn (S k) init /\
    zlen (firstn k target) = Z.of_nat k.
Proof.
  intros Hlen Hk.
  destruct (nth_error_in_range init k) as [x Hx]; [lia|].
  destruct (nth_error_in_range target k) as [y Hy]; [lia|].
  exists x, y; repeat split; auto.
  - now rewrite (skipn_nth_error _ _ _ Hx).
  - rewrite (firstn_nth_error _ _ _ Hy), <- app_assoc. reflexivity.
  - unfold zlen; rewrite length_firstn; lia.
Qed.

(** ** Feature standardizer *)

Section StandardizerFacts.
Context {A : FloatArith}.

Lemma spec_standardize_length (w mean std : list float) :
  (length w <= length mean)%nat -> (length w <= length std)%nat ->
  length (spec_standardize w mean std) = length w.
Proof.
  revert mean std; induction w as [|x w IH]; intros [|m mean] [|s std];
    simpl; intros H1 H2; try lia.
  rewrite IH; lia.
Qed.

Lemma spec_standardize_nth (w mean std : list float) (k : nat) (x m s : float) :
  nth_error w k = Some x -> nth_error mean k = Some m ->
  nth_error std k = Some s ->
  nth_error (spec_standardize w mean std) k = Some (f_div (f_sub x m) s).
Proof.
  revert mean std k; induction w as [|x0 w IH]; intros [|m0 mean] [|s0 std] [|k];
    simpl; try discriminate.
  - intros H1 H2 H3; inversion H1; inversion H2; inversion H3; reflexivity.
  - apply IH.
Qed.

Lemma vget_nth_error {X : Type} (v : list X) (k : nat) :
  vget v (Z.of_nat k) = nth_error v k.
Proof.
  unfold vget. destruct (Z.ltb_spec (Z.of_nat k) 0); [lia|].
  now rewrite Nat2Z.id.
Qed.

(** The in-place loop computes the elementwise z-score whenever the
    mean and deviation vectors are long enough. *)
Lemma standardizeFeatures_refines (m : SVMModel) (w : list float) :
  zlen w <= zlen (featureMeans m) -> zlen w <= zlen (featureStds m) ->
  standardizeFeatures m w =
  Some (spec_standardize w (featureMeans m) (featureStds m)).
Proof.
  unfold zlen; intros Hm Hs.
  assert (Hlen : length (spec_standardize w (featureMeans m) (featureStds m))
                 = length w) by (apply spec_standardize_length; lia).
  unfold standardizeFeatures.
  replace (zlen w)
    with (zlen (spec_standardize w (featureMeans m) (featureStds m)))
    by (unfold zlen; now rewrite Hlen).
  apply fill_loop; [now rewrite Hlen|].
  intros k Hk.
  destruct (fill_loop_shape w _ k (eq_sym Hlen) Hk)
    as [x [y [Hx [Hy [E1 [E2 Hz]]]]]].
  destruct (nth_error_in_range (featureMeans m) k) as [mu Hmu]; [lia|].
  destruct (nth_error_in_range (featureStds m) k) as [sd Hsd]; [lia|].
  rewrite (spec_standardize_nth _ _ _ _ _ _ _ Hx Hmu Hsd) in Hy.
  inversion Hy; subst y.
  rewrite E1, E2, <- Hz.
  rewrite vget_app_mid. simpl.
  rewrite Hz, !vget_nth_error, Hmu, Hsd. simpl.
  rewrite <- Hz. apply vset_app_mid.
Qed.

(** The loop reads the mean and deviation vectors at every index of
    the window, so a window longer than either is an out-of-range read. *)
Lemma standardizeFeatures_out_of_range (m : SVMModel) (w : list float) :
  zlen (featureMeans m) < zlen w \/ zlen (featureStds m) < zlen w ->
  standardizeFeatures m w = None.
Proof.
  intros H. unfold standardizeFeatures.
  pose proof (zlen_nonneg (featureMeans m)).
  pose proof (zlen_nonneg (featureStds m)).
  destruct H as [H|H].
  - apply (for_range_stuck 0 (zlen w) (zlen (featureMeans m))); [lia|].
    intros t. destruct (vget t (zlen (featureMeans m))); simpl; [|reflexivity].
    now rewrite vget_None by lia.
  - apply (for_range_stuck 0 (zlen w) (zlen (featureStds m))); [lia|].
    intros t. destruct (vget t (zlen (featureStds m))); simpl; [|reflexivity].
    destruct (vget (featureMeans m) (zlen (featureStds m))); simpl; [|reflexivity].
    now rewrite vget_None by lia.
Qed.

End StandardizerFacts.

(** ** Kernel classifier *)

Lemma nth_error_combine {X Y : Type} (l1 : list X) (l2 : list Y) (k : nat)
    (a : X) (b : Y) :
  nth_error l1 k = Some a -> nth_error l2 k = Some b ->
  nth_error (combine l1 l2) k = Some (a, b).
Proof.
  revert l2 k; induction l1 as [|h t IH]; intros [|h2 t2] [|k]; simpl;
    try discriminate.
  - intros H1 H2; inversion H1; inversion H2; reflexivity.
  - apply IH.
Qed.

Lemma ECG_BUFFER_SIZE_pos : 0 < ECG_BUFFER_SIZE.
Proof. reflexivity. Qed.

Section ClassifierFacts.
Context {A : FloatArith} {E : LibmExp A}.

(** The distance loop of [rbfKernel] is the ordered sum over the pairs
    of coordinates, provided the second vector is at least as long as
    the first. *)
Lemma rbfKernel_refines (x1 x2 : list float) (g : float) :
  zlen x1 <= zlen x2 ->
  rbfKernel x1 x2 g = Some (spec_kernel g x1 x2).
Proof.
  unfold zlen; intros Hlen. unfold rbfKernel, spec_kernel, spec_sqdist.
  match goal with
  | |- context [for_range 0 _ ?b _] =>
      destruct (for_range_inv
                  (fun i acc =>
                     acc = fold_left sq_acc (firstn (Z.to_nat i) (combine x1 x2))
                                     (f_lit 0 1))
                  0 (zlen x1) b (f_lit 0 1)) as [s' [Hs' HP]]
  end.
  - apply zlen_nonneg.
  - reflexivity.
  - intros i t Hi ->. unfold zlen in Hi.
    destruct (nth_error_in_range x1 (Z.to_nat i)) as [a Ha]; [lia|].
    destruct (nth_error_in_range x2 (Z.to_nat i)) as [b Hb]; [lia|].
    cbv beta. rewrite !vget_to_nat by lia. rewrite Ha, Hb. simpl.
    eexists; split; [reflexivity|].
    replace (Z.to_nat (i + 1)) with (S (Z.to_nat i)) by lia.
    rewrite (firstn_nth_error _ _ _ (nth_error_combine _ _ _ _ _ Ha Hb)).
    rewrite fold_left_app. reflexivity.
  - rewrite Hs'. simpl. rewrite HP. unfold zlen. rewrite Nat2Z.id.
    rewrite firstn_all2; [reflexivity|].
    rewrite length_combine. lia.
Qed.

(** The copy loop of [detectAnomaly] yields row [i] of the table. *)
Lemma extractSupportVector_refines (m : SVMModel) (i : Z) :
  0 <= i ->
  (i + 1) * ECG_BUFFER_SIZE <= zlen (supportVectors m) ->
  extractSupportVector m i = Some (spec_supportVector m (Z.to_nat i)).
Proof.
  intros Hi Hlen. pose proof ECG_BUFFER_SIZE_pos as HN.
  unfold extractSupportVector, spec_supportVector.
  set (N := Z.to_nat ECG_BUFFER_SIZE).
  set (target := firstn N (skipn (Z.to_nat i * N) (supportVectors m))).
  assert (Htl : length target = N).
  { unfold target. rewrite length_firstn, length_skipn.
    unfold zlen in Hlen. subst N. nia. }
  replace ECG_BUFFER_SIZE with (zlen target) at 1
    by (unfold zlen; rewrite Htl; subst N; lia).
  apply fill_loop; [now rewrite repeat_length, Htl|].
  intros k Hk.
  destruct (fill_loop_shape (repeat f_zero N) target k)
    as [x [y [Hx [Hy [E1 [E2 Hz]]]]]];
    [now rewrite repeat_length, Htl | exact Hk |].
  rewrite E1, E2.
  unfold target in Hy.
  rewrite nth_error_firstn in Hy.
  destruct (Nat.ltb_spec k N); [|lia].
  rewrite nth_error_skipn in Hy.
  replace (i * ECG_BUFFER_SIZE + Z.of_nat k)
    with (Z.of_nat (Z.to_nat i * N + k)) by (subst N; lia).
  rewrite vget_nth_error, Hy. simpl.
  rewrite <- Hz. apply vset_app_mid.
Qed.

Lemma wellShaped_longEnough (m : SVMModel) : wellShaped m -> longEnough m.
Proof.
  intros (HM & Hsv & Hco & Hme & Hsd). unfold longEnough. lia.
Qed.

(** [detectAnomaly] on a model whose vectors are long enough and a
    window of [ECG_BUFFER_SIZE] samples accumulates the specification's
    score. *)
Lemma decisionValue_refines (m : SVMModel) (w : list float) :
  longEnough m -> zlen w = ECG_BUFFER_SIZE ->
  decisionValue m w = Some (spec_score m w).
Proof.
  intros (Hsv & Hco & Hme & Hsd) Hw.
  pose proof ECG_BUFFER_SIZE_pos as HN.
  unfold decisionValue.
  rewrite standardizeFeatures_refines by lia. simpl.
  unfold spec_score.
  set (z := spec_standardize w (featureMeans m) (featureStds m)).
  assert (Hz : zlen z = ECG_BUFFER_SIZE).
  { unfold z, zlen. rewrite spec_standardize_length; unfold zlen in *; lia. }
  destruct (Z_lt_le_dec (numSupportVectors m) 0) as [Hneg|HM].
  { rewrite for_range_empty by lia.
    replace (Z.to_nat (numSupportVectors m)) with 0%nat by lia. reflexivity. }
  set (f := fun acc k =>
              f_add acc (f_mul (nth k (dualCoefficients m) f_zero)
                               (spec_kernel (gamma m) z (spec_supportVector m k)))).
  match goal with
  | |- for_range 0 _ ?b _ = _ =>
      destruct (for_range_inv
                  (fun i acc => acc = fold_left f (seq 0 (Z.to_nat i)) (bias m))
                  0 (numSupportVectors m) b (bias m)) as [s' [Hs' HP]]
  end.
  - exact HM.
  - reflexivity.
  - intros i t Hi ->.
    cbv beta.
    rewrite extractSupportVector_refines by nia.
    simpl.
    rewrite rbfKernel_refines.
    2:{ rewrite Hz. unfold spec_supportVector, zlen.
        rewrite length_firstn, length_skipn. unfold zlen in Hsv. nia. }
    simpl.
    rewrite (vget_nth _ _ f_zero) by lia. simpl.
    eexists; split; [reflexivity|].
    replace (Z.to_nat (i + 1)) with (S (Z.to_nat i)) by lia.
    rewrite seq_S, fold_left_app. reflexivity.
  - rewrite Hs', HP. reflexivity.
Qed.

Lemma detectAnomaly_refines (m : SVMModel) (w : list float) :
  longEnough m -> zlen w = ECG_BUFFER_SIZE ->
  detectAnomaly m w = Some (f_lt (spec_score m w) (f_of_int 0)).
Proof.
  intros Hm Hw. unfold detectAnomaly. now rewrite decisionValue_refines.
Qed.

End ClassifierFacts.

(** C1. On every well-shaped model and every window of
    [ECG_BUFFER_SIZE] samples, [detectAnomaly] returns Anomalous exactly
    when the decision score - the bias plus, over all [M] support
    vectors in order, [coefficient[k] * exp(-gamma * ||z - sv[k]||^2)]
    with [z] the standardized window - is strictly below zero; the
    standardized window and each of the [M] support vectors entering the
    sum have all [N] dimensions. *)
Theorem detectAnomaly_decision {A : FloatArith} {E : LibmExp A}
    (m : SVMModel) (w : list float) :
  wellShaped m ->
  zlen w = ECG_BUFFER_SIZE ->
  detectAnomaly m w = Some (f_lt (spec_score m w) (f_of_int 0)) /\
  zlen (spec_standardize w (featureMeans m) (featureStds m)) = ECG_BUFFER_SIZE /\
  forall k, (k < Z.to_nat (numSupportVectors m))%nat ->
            zlen (spec_supportVector m k) = ECG_BUFFER_SIZE.
Proof.
  intros Hm Hw. pose proof ECG_BUFFER_SIZE_pos as HN.
  split; [|split].
  - apply detectAnomaly_refines; auto using wellShaped_longEnough.
  - destruct Hm as (_ & _ & _ & Hme & Hsd).
    unfold zlen in *; rewrite spec_standardize_length; lia.
  - destruct Hm as (HM & Hsv & _). intros k Hk.
    unfold spec_supportVector, zlen in *.
    rewrite length_firstn, length_skipn. nia.
Qed.

(** C1, at a model with two support vectors and the window of ones. *)
Lemma detectAnomaly_decision_witness :
  @detectAnomaly Exact.arith Exact.libm Examples.twoVectorModel (repeat 1%R 140)
  = Some (f_lt (@spec_score Exact.arith Exact.libm Examples.twoVectorModel
                  (repeat 1%R 140))
               (f_of_int 0)) /\
  zlen (@spec_standardize Exact.arith (repeat 1%R 140)
          (featureMeans Examples.twoVectorModel)
          (featureStds Examples.twoVectorModel)) = ECG_BUFFER_SIZE /\
  forall k, (k < Z.to_nat (numSupportVectors Examples.twoVectorModel))%nat ->
            zlen (spec_supportVector Examples.twoVectorModel k) = ECG_BUFFER_SIZE.
Proof.
  apply (@detectAnomaly_decision Exact.arith Exact.libm
           Examples.twoVectorModel (repeat 1%R 140)).
  - repeat split; try reflexivity; vm_compute; discriminate.
  - reflexivity.
Defined.

(** In exact arithmetic the accumulated score is the bias plus the sum
    of the weighted kernel values. *)
Lemma spec_score_exact (m : @SVMModel Exact.arith) (w : list R) :
  @spec_score Exact.arith Exact.libm m w =
  (bias m +
   fold_right Rplus 0
     (map (fun k =>
             nth k (dualCoefficients m) 0 *
             @spec_kernel Exact.arith Exact.libm (gamma m)
               (@spec_standardize Exact.arith w (featureMeans m) (featureStds m))
               (spec_supportVector m k))
          (seq 0 (Z.to_nat (numSupportVectors m)))))%R.
Proof.
  unfold spec_score.
  generalize (seq 0 (Z.to_nat (numSupportVectors m))) as ks.
  generalize (bias m) as b.
  intros b ks; revert b; induction ks as [|k ks IH]; intros b; simpl.
  - lra.
  - rewrite IH. unfold f_zero. simpl. lra.
Qed.

(** ** Kernel: exact arithmetic *)

Section KernelExact.
Open Scope R_scope.

Lemma sqdist_fold_nonneg (l : list (R * R)) (acc : R) :
  0 <= acc -> 0 <= fold_left (@sq_acc Exact.arith) l acc.
Proof.
  revert acc; induction l as [|p l IH]; intros acc Hacc; simpl; [exact Hacc|].
  apply IH. unfold sq_acc. simpl. pose proof (Rle_0_sqr (fst p - snd p)) as Hs.
  unfold Rsqr in Hs. lra.
Qed.

Lemma sqdist_fold_sym (x y : list R) (acc : R) :
  fold_left (@sq_acc Exact.arith) (combine x y) acc = fold_left (@sq_acc Exact.arith) (combine y x) acc.
Proof.
  revert y acc; induction x as [|a x IH]; intros [|b y] acc; simpl; auto.
  rewrite IH. f_equal. unfold sq_acc; simpl. ring.
Qed.

Lemma sqdist_fold_diag (x : list R) (acc : R) :
  fold_left (@sq_acc Exact.arith) (combine x x) acc = acc.
Proof.
  revert acc; induction x as [|a x IH]; intros acc; simpl; auto.
  rewrite IH. unfold sq_acc; simpl. ring.
Qed.

Lemma exp_nonpos_le_1 (t : R) : t <= 0 -> exp t <= 1.
Proof.
  intros [Hlt|Heq].
  - rewrite <- exp_0. left. now apply exp_increasing.
  - subst t. rewrite exp_0. lra.
Qed.

(** In exact arithmetic, for vectors of equal length and [gamma > 0],
    [rbfKernel] returns a value in (0, 1], the same value with its
    arguments exchanged, and 1 on equal arguments. *)
Lemma rbfKernel_exact (x y : list R) (g : R) :
  length x = length y ->
  0 < g ->
  exists k : R,
    @rbfKernel Exact.arith Exact.libm x y g = Some k /\
    0 < k <= 1 /\
    @rbfKernel Exact.arith Exact.libm y x g = Some k /\
    @rbfKernel Exact.arith Exact.libm x x g = Some 1.
Proof.
  intros Hlen Hg.
  rewrite !rbfKernel_refines by (unfold zlen; simpl; lia).
  unfold spec_kernel, spec_sqdist, f_exp, Exact.libm, f_lit.
  cbn [to_float d_lit f_mul f_neg Exact.arith].
  replace (IZR 0 / IZR 1) with 0 by lra.
  exists (exp (- g * fold_left (@sq_acc Exact.arith) (combine x y) 0)).
  pose proof (sqdist_fold_nonneg (combine x y) 0 (Rle_refl 0)) as Hs.
  repeat split.
  - apply exp_pos.
  - apply exp_nonpos_le_1. nra.
  - now rewrite (sqdist_fold_sym y x).
  - rewrite sqdist_fold_diag. rewrite Rmult_0_r. now rewrite exp_0.
Qed.

End KernelExact.

(** ** Kernel: binary32 *)

Section RoundingFacts.
Variables prec emax : Z.

(** Rounding does not look at the sign it attaches. *)
Lemma binary_round_aux_abs (s s' : bool) (m e : Z) (l : location) :
  SFabs (binary_round_aux prec emax s m e l) =
  SFabs (binary_round_aux prec emax s' m e l).
Proof.
  unfold binary_round_aux.
  destruct (shr_fexp prec emax m e l) as [mrs' e'].
  destruct (shr_fexp prec emax _ e' loc_Exact) as [mrs'' e''].
  destruct (shr_m mrs''); try reflexivity.
  destruct (Z.leb e'' (Z.sub emax prec)); reflexivity.
Qed.

Lemma binary_normalize_opp_abs (z e : Z) (sz : bool) :
  SFabs (binary_normalize prec emax (- z) e sz) =
  SFabs (binary_normalize prec emax z e sz).
Proof.
  destruct z as [|p|p]; simpl; try reflexivity;
    unfold binary_round; destruct (shl_align _ _ _) as [mz ez];
    apply binary_round_aux_abs.
Qed.

(** Exchanging the operands of a subtraction changes at most the sign. *)
Lemma SFsub_swap_abs (a b : spec_float) :
  SFabs (SFsub prec emax b a) = SFabs (SFsub prec emax a b).
Proof.
  destruct a as [sa|sa| |sa ma ea], b as [sb|sb| |sb mb eb]; simpl;
    try reflexivity; try (destruct sa, sb; reflexivity).
  rewrite (Z.min_comm eb ea), <- binary_normalize_opp_abs.
  f_equal. f_equal. lia.
Qed.

(** A square depends only on the magnitude. *)
Lemma SFmul_self_abs (d d' : spec_float) :
  SFabs d = SFabs d' -> SFmul prec emax d d = SFmul prec emax d' d'.
Proof.
  destruct d as [s|s| |s m e], d' as [s'|s'| |s' m' e']; simpl; intros H;
    inversion H; subst; try reflexivity; destruct s, s'; reflexivity.
Qed.

Lemma SFsub_diag (a : spec_float) :
  IEEE.finiteF a = true -> SFsub prec emax a a = S754_zero false.
Proof.
  destruct a as [s|s| |s m e]; simpl; try discriminate; intros _.
  - destruct s; reflexivity.
  - now rewrite Z.sub_diag.
Qed.

(** Right shifts and rounding keep a non-negative mantissa
    non-negative, so rounding a non-negative mantissa never yields a
    NaN and attaches the sign it is given. *)
Lemma shr_1_nonneg (mrs : shr_record) :
  0 <= shr_m mrs -> 0 <= shr_m (shr_1 mrs).
Proof.
  destruct mrs as [m r s]. simpl.
  destruct m as [|p|p]; try destruct p; simpl; lia.
Qed.

Lemma iter_pos_shr_1_nonneg (p : positive) :
  forall mrs, 0 <= shr_m mrs -> 0 <= shr_m (iter_pos shr_1 p mrs).
Proof.
  induction p as [p IH|p IH|]; intros mrs H; simpl.
  - apply IH, IH, shr_1_nonneg, H.
  - apply IH, IH, H.
  - apply shr_1_nonneg, H.
Qed.

Lemma shr_fexp_nonneg (m e : Z) (l : location) :
  0 <= m -> 0 <= shr_m (fst (shr_fexp prec emax m e l)).
Proof.
  intros Hm. unfold shr_fexp, shr.
  assert (H0 : 0 <= shr_m (shr_record_of_loc m l))
    by (destruct l as [|[]]; simpl; exact Hm).
  destruct (Z.sub _ e); simpl; auto.
  now apply iter_pos_shr_1_nonneg.
Qed.

Lemma round_nearest_even_nonneg (m : Z) (l : location) :
  0 <= m -> 0 <= round_nearest_even m l.
Proof.
  intros Hm. unfold round_nearest_even.
  destruct l as [|[]]; try lia. destruct (Z.even m); lia.
Qed.

Lemma binary_round_aux_signed (s : bool) (m e : Z) (l : location) :
  0 <= m ->
  IEEE.signedAs s (binary_round_aux prec emax s m e l) = true.
Proof.
  intros Hm. unfold binary_round_aux.
  pose proof (shr_fexp_nonneg m e l Hm) as H1.
  destruct (shr_fexp prec emax m e l) as [mrs' e']. simpl in H1.
  pose proof (shr_fexp_nonneg
                (round_nearest_even (shr_m mrs') (loc_of_shr_record mrs'))
                e' loc_Exact
                (round_nearest_even_nonneg _ _ H1)) as H2.
  destruct (shr_fexp prec emax _ e' loc_Exact) as [mrs'' e'']. simpl in H2.
  destruct (shr_m mrs'') as [|q|q]; simpl; try lia.
  - apply eqb_reflx.
  - destruct (Z.leb e'' (Z.sub emax prec)); simpl; apply eqb_reflx.
Qed.

Lemma binary_round_signed (s : bool) (m : positive) (e : Z) :
  IEEE.signedAs s (binary_round prec emax s m e) = true.
Proof.
  unfold binary_round. destruct (shl_align _ _ _) as [mz ez].
  apply binary_round_aux_signed. lia.
Qed.

Lemma binary_normalize_not_nan (z e : Z) :
  binary_normalize prec emax z e false <> S754_nan.
Proof.
  destruct z as [|p|p]; simpl; try discriminate.
  - pose proof (binary_round_signed false p e) as H.
    intros Hn. rewrite Hn in H. discriminate.
  - pose proof (binary_round_signed true p e) as H.
    intros Hn. rewrite Hn in H. discriminate.
Qed.

Lemma SFsub_finite_not_nan (a b : spec_float) :
  IEEE.finiteF a = true -> IEEE.finiteF b = true ->
  SFsub prec emax a b <> S754_nan.
Proof.
  destruct a as [sa|sa| |sa ma ea], b as [sb|sb| |sb mb eb]; simpl;
    try discriminate; intros _ _.
  - destruct sa, sb; discriminate.
  - apply binary_normalize_not_nan.
Qed.

Lemma SFmul_self_signed (d : spec_float) :
  d <> S754_nan -> IEEE.signedAs false (SFmul prec emax d d) = true.
Proof.
  destruct d as [s|s| |s m e]; simpl; intros H; try contradiction;
    try (destruct s; reflexivity).
  replace (xorb s s) with false by (destruct s; reflexivity).
  apply binary_round_aux_signed. lia.
Qed.

Lemma SFadd_signed_false (p q : spec_float) :
  IEEE.signedAs false p = true -> IEEE.signedAs false q = true ->
  IEEE.signedAs false (SFadd prec emax p q) = true.
Proof.
  destruct p as [sp|sp| |sp mp ep], q as [sq|sq| |sq mq eq]; simpl;
    try discriminate; destruct sp, sq; simpl; try discriminate; auto.
  intros _ _. apply binary_round_signed.
Qed.

Lemma SFmul_negative_signed (m : positive) (e : Z) (q : spec_float) :
  IEEE.signedAs false q = true ->
  IEEE.signedAs true (SFmul prec emax (S754_finite true m e) q) = true.
Proof.
  destruct q as [sq|sq| |sq mq eq]; simpl; try discriminate;
    destruct sq; simpl; try discriminate; auto.
  intros _. apply binary_round_aux_signed. lia.
Qed.

Lemma signedAs_true_nonpositive (t : spec_float) :
  IEEE.signedAs true t = true -> SFleb t (S754_zero false) = true.
Proof.
  destruct t as [s|s| |s m e]; simpl; try discriminate;
    destruct s; simpl; try discriminate; reflexivity.
Qed.

End RoundingFacts.

Section KernelBinary32.
Variable E : LibmExp IEEE.arith.

Lemma sq_acc_swap (acc a b : @float IEEE.arith) :
  sq_acc acc (a, b) = sq_acc acc (b, a).
Proof.
  unfold sq_acc. cbn [fst snd f_add f_mul f_sub IEEE.arith].
  f_equal. apply SFmul_self_abs. symmetry. apply SFsub_swap_abs.
Qed.

Lemma sqdist_binary32_swap (x y : list (@float IEEE.arith)) :
  forall acc,
    fold_left sq_acc (combine x y) acc = fold_left sq_acc (combine y x) acc.
Proof.
  revert y; induction x as [|a x IH]; intros [|b y] acc;
    cbn [combine fold_left]; auto.
  rewrite IH. f_equal. apply sq_acc_swap.
Qed.

Lemma sqdist_binary32_diag (x : list (@float IEEE.arith)) :
  forallb IEEE.finiteF x = true ->
  fold_left sq_acc (combine x x) (S754_zero false) = S754_zero false.
Proof.
  induction x as [|a x IH]; intros H; [reflexivity|].
  cbn [forallb] in H. apply andb_true_iff in H as [Ha Hx].
  cbn [combine fold_left].
  assert (Hs : @sq_acc IEEE.arith (S754_zero false) (a, a) = S754_zero false).
  { unfold sq_acc. cbn [fst snd f_add f_mul f_sub IEEE.arith].
    now rewrite (SFsub_diag 24 128 a Ha). }
  rewrite Hs. apply IH, Hx.
Qed.

Lemma sqdist_binary32_signed (x : list (@float IEEE.arith)) :
  forall (y : list (@float IEEE.arith)) (acc : @float IEEE.arith),
    forallb IEEE.finiteF x = true -> forallb IEEE.finiteF y = true ->
    IEEE.signedAs false acc = true ->
    IEEE.signedAs false (fold_left sq_acc (combine x y) acc) = true.
Proof.
  induction x as [|a x IH]; intros [|b y] acc Hx Hy Hacc;
    cbn [combine fold_left]; auto.
  cbn [forallb] in Hx, Hy.
  apply andb_true_iff in Hx as [Ha Hx]. apply andb_true_iff in Hy as [Hb Hy].
  apply IH; auto.
  unfold sq_acc. cbn [fst snd f_add f_mul f_sub IEEE.arith].
  apply SFadd_signed_false; [exact Hacc|].
  apply SFmul_self_signed. now apply SFsub_finite_not_nan.
Qed.

(** In binary32, with any library [exp]: the kernel is symmetric bit
    for bit. *)
Lemma rbfKernel_binary32_symmetric (x y : list (@float IEEE.arith))
    (g : @float IEEE.arith) :
  length x = length y ->
  rbfKernel x y g = rbfKernel y x g.
Proof.
  intros Hlen.
  rewrite !rbfKernel_refines by (unfold zlen; lia).
  unfold spec_kernel, spec_sqdist. now rewrite sqdist_binary32_swap.
Qed.

(** In binary32 the argument handed to [exp] is [-0], a negative number
    or [-inf] - never positive, never a NaN - when the vectors are
    finite and [gamma] is a positive finite number. *)
Lemma rbfKernel_binary32_argument (x y : list (@float IEEE.arith))
    (m : positive) (e : Z) :
  length x = length y ->
  forallb IEEE.finiteF x = true -> forallb IEEE.finiteF y = true ->
  exists t : @float IEEE.arith,
    rbfKernel x y (S754_finite false m e) = Some (E t) /\
    SFleb t (S754_zero false) = true.
Proof.
  intros Hlen Hx Hy.
  rewrite rbfKernel_refines by (unfold zlen; lia).
  unfold spec_kernel. eexists; split; [reflexivity|].
  apply signedAs_true_nonpositive.
  cbn [f_mul f_neg IEEE.arith SFopp negb].
  apply SFmul_negative_signed.
  unfold spec_sqdist. apply sqdist_binary32_signed; auto.
Qed.

(** In binary32 the kernel of a finite vector with itself is
    [exp(-0)]. *)
Lemma rbfKernel_binary32_diag (x : list (@float IEEE.arith))
    (m : positive) (e : Z) :
  forallb IEEE.finiteF x = true ->
  rbfKernel x x (S754_finite false m e) = Some (E (S754_zero true)).
Proof.
  intros Hx.
  rewrite rbfKernel_refines by (unfold zlen; lia).
  unfold spec_kernel, spec_sqdist.
  change (@f_lit IEEE.arith 0 1) with (S754_zero false).
  now rewrite sqdist_binary32_diag.
Qed.

End KernelBinary32.

(** C6 as stated fails in binary32: between the largest finite number
    and its opposite the squared distance overflows, the argument of
    [exp] is [-inf], and the kernel is exactly 0 - outside (0, 1]. *)
Lemma rbfKernel_binary32_zero :
  @rbfKernel IEEE.arith Examples.annexF_exp
    [Examples.maxFloat] [f_neg Examples.maxFloat] (f_lit 1 100)
  = Some (S754_zero false) /\
  @f_lt IEEE.arith (f_of_int 0) (S754_zero false) = false.
Proof.
  split; vm_compute; reflexivity.
Qed.

(** C6, amended. In binary32, for every library [exp]: the kernel is
    symmetric bit for bit on vectors of equal length; on finite vectors
    and a finite [gamma > 0] it is [exp] of an argument that is [-0],
    negative or [-inf], so it can come out as exactly 0; and on equal
    finite vectors it is [exp(-0)], that is 1. In exact arithmetic, for
    [gamma > 0], it lies in (0, 1], is symmetric, and is 1 on equal
    arguments. *)
Theorem rbfKernel_symmetric_unit_interval :
  (forall (E : LibmExp IEEE.arith) (x y : list (@float IEEE.arith))
          (g : @float IEEE.arith),
     length x = length y ->
     @rbfKernel IEEE.arith E x y g = @rbfKernel IEEE.arith E y x g) /\
  (forall (E : LibmExp IEEE.arith) (x y : list (@float IEEE.arith))
          (m : positive) (e : Z),
     length x = length y ->
     forallb IEEE.finiteF x = true -> forallb IEEE.finiteF y = true ->
     exists t : @float IEEE.arith,
       @rbfKernel IEEE.arith E x y (S754_finite false m e) = Some (E t) /\
       SFleb t (S754_zero false) = true) /\
  (forall (E : LibmExp IEEE.arith) (x : list (@float IEEE.arith))
          (m : positive) (e : Z),
     E (S754_zero true) = @f_of_int IEEE.arith 1 ->
     forallb IEEE.finiteF x = true ->
     @rbfKernel IEEE.arith E x x (S754_finite false m e)
     = Some (@f_of_int IEEE.arith 1)) /\
  (forall (x y : list R) (g : R),
     length x = length y -> (0 < g)%R ->
     exists k : R,
       @rbfKernel Exact.arith Exact.libm x y g = Some k /\
       (0 < k <= 1)%R /\
       @rbfKernel Exact.arith Exact.libm y x g = Some k /\
       @rbfKernel Exact.arith Exact.libm x x g = Some 1%R).
Proof.
  split; [|split; [|split]].
  - intros E. apply rbfKernel_binary32_symmetric.
  - intros E. apply rbfKernel_binary32_argument.
  - intros E x m e HE Hx.
    rewrite rbfKernel_binary32_diag by exact Hx.
    unfold f_exp. now rewrite HE.
  - apply rbfKernel_exact.
Qed.

(** C6, at two three-dimensional vectors in exact arithmetic. *)
Lemma rbfKernel_symmetric_unit_interval_witness :
  exists k : R,
    @rbfKernel Exact.arith Exact.libm [1; 2; 3]%R [3; 2; 1]%R (1 / 100)%R
      = Some k /\
    (0 < k <= 1)%R /\
    @rbfKernel Exact.arith Exact.libm [3; 2; 1]%R [1; 2; 3]%R (1 / 100)%R
      = Some k /\
    @rbfKernel Exact.arith Exact.libm [1; 2; 3]%R [1; 2; 3]%R (1 / 100)%R
      = Some 1%R.
Proof.
  apply (proj2 (proj2 (proj2 rbfKernel_symmetric_unit_interval))
           [1; 2; 3]%R [3; 2; 1]%R (1 / 100)%R).
  - reflexivity.
  - lra.
Defined.

(** Underflow is the ordinary case: with the built-in model and the
    all-zero window, the argument handed to [exp] for support vector 2
    is [-361.95...], below -104, where [e^t] is less than half the
    smallest positive binary32 number. *)
Example rbfKernel_builtin_model_argument :
  option_map
    (fun m : @SVMModel IEEE.arith =>
       let z := spec_standardize (repeat (f_lit 0 1) 140)
                  (featureMeans m) (featureStds m) in
       let t := f_mul (f_neg (gamma m))
                  (spec_sqdist z (spec_supportVector m 2)) in
       (t, f_lt t (f_of_int (-104))))
    (@setupSVMModel IEEE.arith)
  = Some (S754_finite true 11860576 (-15), true).
Proof.
  vm_compute. reflexivity.
Qed.

(** Equal finite vectors in binary32, with the library [exp] known at
    its special values only. *)
Example rbfKernel_binary32_example :
  @rbfKernel IEEE.arith Examples.annexF_exp
    [f_of_int 1; f_of_int 2; f_of_int 3] [f_of_int 1; f_of_int 2; f_of_int 3]
    (f_lit 1 100)
  = Some (f_of_int 1).
Proof.
  vm_compute. reflexivity.
Qed.

(** ** Standardizer: length handling and round trip *)

(** C8 as stated fails: a window shorter than the mean vector is
    standardized without any failure being signalled (binary32). *)
Lemma standardizeFeatures_accepts_shorter_window :
  zlen [@f_of_int IEEE.arith 3] <> zlen (featureMeans Examples.twoDimModel) /\
  standardizeFeatures Examples.twoDimModel [@f_of_int IEEE.arith 3]
  = Some [@f_of_int IEEE.arith 3].
Proof.
  split.
  - vm_compute. discriminate.
  - vm_compute. reflexivity.
Qed.

(** C8, amended. [standardizeFeatures] has no length check: it returns
    the elementwise result for every window no longer than the mean and
    deviation vectors - shorter windows included - and for a longer
    window it reads those vectors out of range (no result). *)
Theorem standardizeFeatures_length_behaviour {A : FloatArith}
    (m : SVMModel) (w : list float) :
  standardizeFeatures m w =
  if (zlen w <=? zlen (featureMeans m)) && (zlen w <=? zlen (featureStds m))
  then Some (spec_standardize w (featureMeans m) (featureStds m))
  else None.
Proof.
  destruct (Z.leb_spec (zlen w) (zlen (featureMeans m))) as [H1|H1];
    destruct (Z.leb_spec (zlen w) (zlen (featureStds m))) as [H2|H2]; simpl.
  - now apply standardizeFeatures_refines.
  - apply standardizeFeatures_out_of_range; now right.
  - apply standardizeFeatures_out_of_range; now left.
  - apply standardizeFeatures_out_of_range; now left.
Qed.




(** In binary32 the round trip is exact only up to rounding: with mean
    0.3 and deviation 3 the sample 0.1 comes back one unit in the last
    place lower. *)
Example standardizeFeatures_roundtrip_binary32 :
  let x := @f_lit IEEE.arith 1 10 in
  exists z,
    standardizeFeatures Examples.oneDimModel [x] = Some [z] /\
    x = S754_finite false 13421773 (-27) /\
    f_add (f_mul z (f_of_int 3)) (f_lit 3 10) = S754_finite false 13421772 (-27).
Proof.
  eexists; repeat split; vm_compute; reflexivity.
Qed.

(** ** Rate estimator *)

Section RateFacts.
Context {A : FloatArith}.

Lemma peakStep_at (thr : float) (pre : list float) (prev cur : float)
    (rest : list float) (c : Z) (r : bool) :
  peakStep thr (pre ++ prev :: cur :: rest) (zlen pre + 1) (c, r) =
  Some (if r then (if f_lt cur prev then (c + 1, false) else (c, true))
        else (if f_lt prev cur && f_lt thr cur then (c, true) else (c, false))).
Proof.
  unfold peakStep.
  replace (pre ++ prev :: cur :: rest) with ((pre ++ [prev]) ++ cur :: rest)
    by (now rewrite <- app_assoc).
  replace (zlen pre + 1) with (zlen (pre ++ [prev]))
    by (unfold zlen; rewrite length_app; simpl; lia).
  rewrite vget_app_mid. simpl.
  replace (zlen (pre ++ [prev]) - 1) with (zlen pre)
    by (unfold zlen; rewrite length_app; simpl; lia).
  rewrite <- app_assoc. simpl. rewrite vget_app_mid. simpl.
  destruct r; simpl.
  - destruct (f_lt cur prev); reflexivity.
  - destruct (f_lt prev cur && f_lt thr cur); reflexivity.
Qed.

(** The indexed loop, started anywhere in the window, adds to its
    counter what the specification's recursion counts on the rest. *)
Lemma peak_loop_refines (thr : float) (rest : list float) :
  forall (pre : list float) (prev : float) (c : Z) (r : bool),
  exists r',
    for_loop (length rest) (zlen pre + 1)
      (peakStep thr (pre ++ prev :: rest)) (c, r)
    = Some (c + spec_peaks thr prev rest r, r').
Proof.
  induction rest as [|cur rest IH]; intros pre prev c r.
  - exists r. simpl. now rewrite Z.add_0_r.
  - change (length (cur :: rest)) with (S (length rest)).
    rewrite for_loop_S, peakStep_at.
    cbn [bind spec_peaks].
    replace (zlen pre + 1 + 1) with (zlen (pre ++ [prev]) + 1)
      by (unfold zlen; rewrite length_app; simpl; lia).
    replace (pre ++ prev :: cur :: rest) with ((pre ++ [prev]) ++ cur :: rest)
      by (now rewrite <- app_assoc).
    destruct r.
    + destruct (f_lt cur prev).
      * destruct (IH (pre ++ [prev]) cur (c + 1) false) as [r' Hr'].
        exists r'. rewrite Hr'. f_equal. f_equal. lia.
      * apply IH.
    + destruct (f_lt prev cur && f_lt thr cur); apply IH.
Qed.

Lemma countPeaks_refines (w : list float) :
  countPeaks w = Some (spec_peakCount w).
Proof.
  unfold countPeaks, for_range, spec_peakCount.
  destruct w as [|x rest]; [reflexivity|].
  replace (Z.to_nat (zlen (x :: rest) - 1)) with (length rest)
    by (unfold zlen; simpl length; lia).
  destruct (peak_loop_refines (f_lit 3 2) rest [] x 0 false) as [r' Hr'].
  change (zlen (@nil float) + 1) with 1 in Hr'.
  change ([] ++ x :: rest) with (x :: rest) in Hr'.
  rewrite Hr'. reflexivity.
Qed.

(** Every counted peak uses up a rising step and a falling step. *)
Lemma spec_peaks_bound (thr : float) (rest : list float) :
  forall (prev : float) (r : bool),
    0 <= spec_peaks thr prev rest r /\
    2 * spec_peaks thr prev rest r <= zlen rest + (if r then 1 else 0).
Proof.
  induction rest as [|cur rest IH]; intros prev r.
  - simpl. destruct r; unfold zlen; simpl; lia.
  - assert (Hl : zlen (cur :: rest) = zlen rest + 1)
      by (unfold zlen; simpl length; lia).
    rewrite Hl. cbn [spec_peaks].
    destruct r.
    + destruct (f_lt cur prev).
      * destruct (IH cur false). lia.
      * destruct (IH cur true). lia.
    + destruct (f_lt prev cur && f_lt thr cur).
      * destruct (IH cur true). lia.
      * destruct (IH cur false). lia.
Qed.

(** After a high sample, [k] further (low, high) pairs are [k] peaks. *)
Lemma spec_peaks_low_high (thr lo hi : float) (k : nat) :
  f_lt lo hi = true -> f_lt thr hi = true ->
  spec_peaks thr hi (concat (repeat [lo; hi] k)) true = Z.of_nat k.
Proof.
  intros Hlh Hth. induction k as [|k IH]; [reflexivity|].
  cbn [repeat concat app spec_peaks].
  rewrite Hlh, Hth. cbn [andb]. rewrite IH. lia.
Qed.

End RateFacts.

(** C3 as stated fails: [N/2 = 70] synthetic (low, high) pairs in a
    window of [N = 140] samples are counted as 69 peaks, in whichever
    order the pairs are laid out, and the rate returned is 10645.71...
    rather than [(N/2) * 60 * R / N = 10800] (binary32). *)
Lemma calculateHeartRate_half_window_peaks :
  zlen Examples.lowHighWindow = ECG_BUFFER_SIZE /\
  countPeaks Examples.lowHighWindow = Some 69 /\
  countPeaks Examples.highLowWindow = Some 69 /\
  calculateHeartRate Examples.lowHighWindow
    = Some (S754_finite false 10901211 (-10)) /\
  calculateHeartRate Examples.highLowWindow
    = Some (S754_finite false 10901211 (-10)) /\
  @to_float IEEE.arith
    (d_div (d_mul (d_mul (d_of_int (ECG_BUFFER_SIZE / 2)) (d_lit 60 1))
                  (d_of_int SAMPLING_RATE))
           (d_of_int ECG_BUFFER_SIZE))
    = S754_finite false 11059200 (-10).
Proof.
  repeat split; vm_compute; reflexivity.
Qed.

(** C3, amended. [calculateHeartRate] counts peaks in one pass as the
    specification describes and returns
    [peakCount * 60 / (N / samplingRateHz)]; each counted peak takes a
    rising and a falling step, so a window of [n] samples holds at most
    [(n - 1) / 2] of them - 69, not [N/2 = 70], for [N = 140] - and a
    window made of [k + 1] pairs (low, high), with high above low and
    above the threshold, is counted as [k] peaks. *)
Theorem calculateHeartRate_peak_count {A : FloatArith} :
  (forall w : list float,
     calculateHeartRate w =
       Some (to_float
               (d_div (d_mul (d_of_int (spec_peakCount w)) (d_lit 60 1))
                      (to_double (f_div (f_of_int ECG_BUFFER_SIZE)
                                        (f_of_int SAMPLING_RATE))))) /\
     0 <= spec_peakCount w /\
     2 * spec_peakCount w <= Z.max 0 (zlen w - 1) /\
     (zlen w = ECG_BUFFER_SIZE -> spec_peakCount w <= 69)) /\
  (forall (lo hi : float) (k : nat),
     f_lt lo hi = true -> f_lt (f_lit 3 2) hi = true ->
     spec_peakCount (concat (repeat [lo; hi] (S k))) = Z.of_nat k).
Proof.
  split.
  - intros w.
    assert (Hb : 0 <= spec_peakCount w /\
                 2 * spec_peakCount w <= Z.max 0 (zlen w - 1)).
    { unfold spec_peakCount. destruct w as [|x rest].
      - unfold zlen; simpl; lia.
      - destruct (spec_peaks_bound (f_lit 3 2) rest x false) as [H0 H1].
        unfold zlen in *. simpl length. lia. }
    split; [|split; [|split]]; try tauto.
    + unfold calculateHeartRate. rewrite countPeaks_refines. reflexivity.
    + intros HN. unfold ECG_BUFFER_SIZE in HN. lia.
  - intros lo hi k Hlh Hth.
    cbn [repeat concat app spec_peakCount spec_peaks].
    rewrite Hlh, Hth. cbn [andb].
    now apply spec_peaks_low_high.
Qed.

(** C3, at 70 pairs (0.0, 2.0) in binary32. *)
Lemma calculateHeartRate_peak_count_witness :
  @spec_peakCount IEEE.arith
    (concat (repeat [@f_of_int IEEE.arith 0; @f_of_int IEEE.arith 2] 70)) = 69.
Proof.
  apply (proj2 (@calculateHeartRate_peak_count IEEE.arith)
           (@f_of_int IEEE.arith 0) (@f_of_int IEEE.arith 2) 69%nat);
    reflexivity.
Defined.

(** ** Rate smoothing *)

Lemma Rltb_true (a b : R) : Exact.Rltb a b = true <-> (a < b)%R.
Proof.
  unfold Exact.Rltb; destruct (Rlt_dec a b); split; intros; try tauto;
    try discriminate; reflexivity.
Qed.

Section PipelineFacts.
Context {A : FloatArith} {E : LibmExp A}.

(** [processECGData] leaves in [heartRate] the smoothing of its previous
    value with the rate of the reconstructed window. *)
Lemma processECGData_heartRate (clk : AlertClock) (st st' : State)
    (evs : list Event) :
  processECGData clk st = Some (st', evs) ->
  exists w n,
    reconstructWindow (ecgBuffer st) (bufferIndex st) = Some w /\
    calculateHeartRate w = Some n /\
    heartRate st' = smoothHeartRate (heartRate st) n.
Proof.
  unfold processECGData. intros H.
  apply bind_Some in H as [w [Hw H]].
  apply bind_Some in H as [n [Hn H]].
  apply bind_Some in H as [b [Hb H]].
  exists w, n. repeat split; auto.
  inversion H as [H1]. unfold alertStep in H1.
  match type of H1 with
  | context [if ?c then _ else _] => destruct c
  end; inversion H1; reflexivity.
Qed.

End PipelineFacts.




(** ** Sample buffer *)

Lemma rem_small (a n : Z) : 0 <= a < n -> Z.rem a n = a.
Proof. intros H. apply Z.rem_small. lia. Qed.

Lemma rem_wrap (a n : Z) : n <= a < 2 * n -> 0 < n -> Z.rem a n = a - n.
Proof.
  intros H Hn. rewrite Z.rem_mod_nonneg by lia.
  symmetry. apply (Z.mod_unique_pos a n 1 (a - n)); lia.
Qed.

Lemma replace_nth_split {X : Type} (v : list X) (k : nat) (x : X) :
  (k < length v)%nat ->
  replace_nth k x v = firstn k v ++ x :: skipn (S k) v.
Proof.
  revert k; induction v as [|h t IH]; intros [|k] Hk; simpl in *; try lia.
  - reflexivity.
  - f_equal. apply IH. lia.
Qed.

Section BufferFacts.
Context {A : FloatArith} {E : LibmExp A}.

(** The reconstruction loop reads the buffer from the cursor round. *)
Lemma reconstructWindow_rotation (buf : list float) (idx : Z) :
  zlen buf = ECG_BUFFER_SIZE -> 0 <= idx < ECG_BUFFER_SIZE ->
  reconstructWindow buf idx =
  Some (skipn (Z.to_nat idx) buf ++ firstn (Z.to_nat idx) buf).
Proof.
  intros Hlen Hidx. pose proof ECG_BUFFER_SIZE_pos as HN.
  unfold reconstructWindow.
  set (target := skipn (Z.to_nat idx) buf ++ firstn (Z.to_nat idx) buf).
  assert (Htl : length target = Z.to_nat ECG_BUFFER_SIZE).
  { unfold target. rewrite length_app, length_skipn, length_firstn.
    unfold zlen in Hlen. lia. }
  replace ECG_BUFFER_SIZE with (zlen target) at 1
    by (unfold zlen; rewrite Htl; lia).
  apply fill_loop; [now rewrite repeat_length, Htl|].
  intros k Hk.
  destruct (fill_loop_shape (repeat f_zero (Z.to_nat ECG_BUFFER_SIZE)) target k)
    as [x [y [Hx [Hy [E1 [E2 Hz]]]]]];
    [now rewrite repeat_length, Htl | exact Hk |].
  rewrite E1, E2. cbv zeta.
  assert (Hget : vget buf (Z.rem (idx + Z.of_nat k) ECG_BUFFER_SIZE) = Some y).
  { unfold target in Hy. unfold zlen in Hlen.
    destruct (Z_lt_le_dec (idx + Z.of_nat k) ECG_BUFFER_SIZE) as [Hlt|Hge].
    - rewrite rem_small by lia.
      rewrite nth_error_app1 in Hy by (rewrite length_skipn; lia).
      rewrite nth_error_skipn in Hy.
      rewrite vget_to_nat by lia.
      now replace (Z.to_nat (idx + Z.of_nat k)) with (Z.to_nat idx + k)%nat by lia.
    - rewrite rem_wrap by lia.
      rewrite nth_error_app2 in Hy by (rewrite length_skipn; lia).
      rewrite length_skipn, nth_error_firstn in Hy.
      destruct (Nat.ltb_spec (k - (length buf - Z.to_nat idx))%nat (Z.to_nat idx));
        [|lia].
      rewrite vget_to_nat by lia.
      now replace (Z.to_nat (idx + Z.of_nat k - ECG_BUFFER_SIZE))
        with (k - (length buf - Z.to_nat idx))%nat by lia. }
  rewrite Hget. simpl. rewrite <- Hz. apply vset_app_mid.
Qed.

(** The two buffer statements on a buffer in order. *)
Lemma bufferStore_ok (v : float) (st : State) :
  bufferOk st ->
  exists st',
    bufferStore v st = Some st' /\
    ecgBuffer st' = replace_nth (Z.to_nat (bufferIndex st)) v (ecgBuffer st) /\
    bufferIndex st' = Z.rem (bufferIndex st + 1) ECG_BUFFER_SIZE /\
    svmModel st' = svmModel st /\
    heartRate st' = heartRate st /\
    anomalyDetected st' = anomalyDetected st /\
    lastAnomalyTime st' = lastAnomalyTime st /\
    buzzerPin st' = buzzerPin st.
Proof.
  intros [Hlen Hidx]. unfold bufferStore.
  rewrite vset_Some by lia. cbn [bind].
  eexists. split; [reflexivity|]. repeat split.
Qed.

(** One push: the store succeeds, the cursor advances modulo the
    capacity, the oldest sample leaves and the new one is the newest;
    a window - the buffer in chronological order - is returned exactly
    when the cursor is back at zero. *)
Lemma push_step (v : float) (st : State) :
  bufferOk st ->
  exists st',
    push v st =
      Some (st', if bufferIndex st' =? 0 then Some (chronological st') else None) /\
    bufferOk st' /\
    bufferIndex st' = (bufferIndex st + 1) mod ECG_BUFFER_SIZE /\
    chronological st' = skipn 1 (chronological st ++ [v]) /\
    svmModel st' = svmModel st.
Proof.
  intros [Hlen Hidx]. pose proof ECG_BUFFER_SIZE_pos as HN.
  destruct (bufferStore_ok v st (conj Hlen Hidx))
    as [st' [Hst [Hbuf [Hix Hmod]]]].
  assert (Hlen' : zlen (ecgBuffer st') = ECG_BUFFER_SIZE).
  { rewrite Hbuf. unfold zlen. now rewrite replace_nth_length. }
  assert (Hidx' : bufferIndex st' = (bufferIndex st + 1) mod ECG_BUFFER_SIZE).
  { rewrite Hix. apply Z.rem_mod_nonneg; lia. }
  assert (Hr : 0 <= bufferIndex st' < ECG_BUFFER_SIZE).
  { rewrite Hidx'. apply Z.mod_pos_bound. lia. }
  assert (Hch : chronological st' = skipn 1 (chronological st ++ [v])).
  { unfold chronological. rewrite Hidx', Hbuf.
    unfold zlen in Hlen.
    rewrite replace_nth_split by lia.
    set (i := Z.to_nat (bufferIndex st)).
    set (buf := ecgBuffer st).
    assert (Hi : (i < length buf)%nat) by (subst i buf; lia).
    assert (Hf : length (firstn i buf) = i) by (rewrite length_firstn; lia).
    destruct (Z_lt_le_dec (bufferIndex st + 1) ECG_BUFFER_SIZE) as [Hlt|Hge].
    - rewrite Z.mod_small by lia.
      replace (Z.to_nat (bufferIndex st + 1)) with (S i) by (subst i; lia).
      destruct (nth_error_in_range buf i Hi) as [x Hx].
      rewrite (skipn_nth_error _ _ _ Hx). simpl skipn at 3.
      rewrite skipn_app, Hf.
      rewrite (skipn_all2 (firstn i buf)) by lia.
      replace (S i - i)%nat with 1%nat by lia. simpl skipn.
      rewrite firstn_app, Hf.
      rewrite (firstn_all2 (firstn i buf)) by lia.
      replace (S i - i)%nat with 1%nat by lia. simpl firstn.
      rewrite app_nil_l. apply app_assoc.
    - assert (Hlast : bufferIndex st + 1 = ECG_BUFFER_SIZE) by lia.
      rewrite Hlast, Z.mod_same by lia.
      assert (Hsk : skipn (S i) buf = []) by (apply skipn_all2; subst i buf; lia).
      rewrite Hsk.
      destruct (nth_error_in_range buf i Hi) as [x Hx].
      rewrite (skipn_nth_error _ _ _ Hx), Hsk.
      change (Z.to_nat 0) with 0%nat. simpl. now rewrite app_nil_r. }
  exists st'. split; [|repeat split; auto; try lia; apply Hmod].
  unfold push. rewrite Hst. cbn [bind].
  destruct (Z.eqb_spec (bufferIndex st') 0) as [H0|H0]; [|reflexivity].
  rewrite reconstructWindow_rotation by auto. reflexivity.
Qed.

(** Any number of pushes from a state whose buffer is in order. *)
Lemma pushAll_spec (vs : list float) :
  forall st : State,
  bufferOk st ->
  exists st' outs,
    pushAll vs st = Some (st', outs) /\
    bufferOk st' /\
    length outs = length vs /\
    forall k, (k < length vs)%nat ->
      nth k outs None =
      if (bufferIndex st + Z.of_nat (k + 1)) mod ECG_BUFFER_SIZE =? 0
      then Some (skipn (k + 1) (chronological st ++ firstn (k + 1) vs))
      else None.
Proof.
  pose proof ECG_BUFFER_SIZE_pos as HN.
  induction vs as [|v vs IH]; intros st Hok.
  - exists st, []. repeat split; auto; try apply Hok. simpl; intros; lia.
  - destruct (push_step v st Hok) as [st1 [Hp [Hok1 [Hidx [Hch _]]]]].
    destruct (IH st1 Hok1) as [st2 [outs [Hpa [Hok2 [Hl Hn]]]]].
    exists st2. eexists.
    simpl pushAll. rewrite Hp. simpl bind. rewrite Hpa. simpl bind.
    split; [reflexivity|]. split; [exact Hok2|].
    split; [simpl; now rewrite Hl|].
    intros [|k] Hk.
    + simpl nth. rewrite Hidx, Hch. simpl firstn.
      replace (bufferIndex st + Z.of_nat (0 + 1)) with (bufferIndex st + 1) by lia.
      reflexivity.
    + simpl nth. rewrite Hn by (simpl in Hk; lia).
      rewrite Hidx, Hch, Zplus_mod_idemp_l.
      replace (bufferIndex st + 1 + Z.of_nat (k + 1))
        with (bufferIndex st + Z.of_nat (S k + 1)) by lia.
      destruct ((bufferIndex st + Z.of_nat (S k + 1)) mod ECG_BUFFER_SIZE =? 0);
        [|reflexivity].
      f_equal.
      replace (S k + 1)%nat with (S (k + 1)) by lia. rewrite firstn_cons.
      assert (Hne : chronological st <> []).
      { intros Hnil. apply (f_equal (@length _)) in Hnil.
        unfold chronological in Hnil.
        rewrite length_app, length_skipn, length_firstn in Hnil.
        destruct Hok as [Hlen Hi]. unfold zlen in Hlen. simpl in Hnil. lia. }
      destruct (chronological st) as [|c cs]; [contradiction|].
      simpl. rewrite <- app_assoc. reflexivity.
Qed.

End BufferFacts.

Lemma bootState_bufferOk {A : FloatArith} (m : SVMModel) (now : Z) :
  bufferOk (bootState m now) /\
  chronological (bootState m now) =
    repeat (f_lit 0 1) (Z.to_nat ECG_BUFFER_SIZE).
Proof.
  pose proof ECG_BUFFER_SIZE_pos as HN.
  split.
  - split; cbn [bootState ecgBuffer bufferIndex]; [apply zlen_repeat|]; lia.
  - unfold chronological. cbn [bootState ecgBuffer bufferIndex].
    change (Z.to_nat 0) with 0%nat. cbn [skipn firstn]. now rewrite app_nil_r.
Qed.

(** The sampling branch of [loop] runs [processECGData] exactly when
    [push] returns a window. *)
Lemma sampleTick_push {A : FloatArith} {E : LibmExp A}
    (ecgValue : Z) (clk : AlertClock) (st st1 : State)
    (ow : option (list float)) :
  push (adcVoltage ecgValue) st = Some (st1, ow) ->
  sampleTick ecgValue clk st =
  let stream :=
    if Z.rem (bufferIndex st1) 5 =? 0 then [WsEcg (adcVoltage ecgValue)]
    else [] in
  match ow with
  | Some _ => r <- processECGData clk st1 ;; Some (fst r, stream ++ snd r)
  | None => Some (st1, stream)
  end.
Proof.
  unfold push, sampleTick. intros H.
  apply bind_Some in H as [st' [Hst H]].
  rewrite Hst. cbn [bind].
  destruct (bufferIndex st' =? 0).
  - apply bind_Some in H as [w [_ H]]. inversion H; subst. reflexivity.
  - inversion H; subst. reflexivity.
Qed.

(** C2. From the booted state, over any sequence of pushes, the [j]-th
    push ([j = k + 1]) returns a window exactly when [j] is a multiple
    of [N = ECG_BUFFER_SIZE] - so never before the [N]-th push - and
    that window is the last [N] samples pushed, oldest first. *)
Theorem sampleBuffer_window_every_N {A : FloatArith}
    (m : SVMModel) (now : Z) (vs : list float) :
  exists st' outs,
    pushAll vs (bootState m now) = Some (st', outs) /\
    length outs = length vs /\
    forall k, (k < length vs)%nat ->
      nth k outs None =
        (if Z.of_nat (k + 1) mod ECG_BUFFER_SIZE =? 0
         then Some (skipn (k + 1 - Z.to_nat ECG_BUFFER_SIZE) (firstn (k + 1) vs))
         else None) /\
      (Z.of_nat (k + 1) mod ECG_BUFFER_SIZE = 0 ->
       zlen (skipn (k + 1 - Z.to_nat ECG_BUFFER_SIZE) (firstn (k + 1) vs))
       = ECG_BUFFER_SIZE).
Proof.
  pose proof ECG_BUFFER_SIZE_pos as HN.
  destruct (bootState_bufferOk m now) as [Hok Hch].
  destruct (pushAll_spec vs (bootState m now) Hok)
    as [st' [outs [Hp [_ [Hl Hn]]]]].
  exists st', outs. split; [exact Hp|]. split; [exact Hl|].
  intros k Hk.
  assert (Hge : Z.of_nat (k + 1) mod ECG_BUFFER_SIZE = 0 ->
                (Z.to_nat ECG_BUFFER_SIZE <= k + 1)%nat).
  { intros H0. destruct (Z_lt_le_dec (Z.of_nat (k + 1)) ECG_BUFFER_SIZE); [|lia].
    rewrite Z.mod_small in H0 by lia. lia. }
  split.
  - rewrite (Hn k Hk). cbn [bootState bufferIndex]. rewrite Z.add_0_l.
    destruct (Z.eqb_spec (Z.of_nat (k + 1) mod ECG_BUFFER_SIZE) 0) as [H0|H0];
      [|reflexivity].
    rewrite Hch, skipn_app, repeat_length.
    rewrite skipn_all2 by (rewrite repeat_length; auto).
    reflexivity.
  - intros H0. unfold zlen.
    rewrite length_skipn, length_firstn. specialize (Hge H0). lia.
Qed.

(** ** Alert debouncer *)

Lemma usub_small (a b : Z) : 0 <= a - b < 2 ^ 32 -> usub a b = a - b.
Proof. intros H. unfold usub. apply Z.mod_small. exact H. Qed.

Section DebouncerFacts.
Context {A : FloatArith}.

(** Inside the cooldown the alert block does nothing, whatever the
    classification. *)
Lemma alertStep_in_cooldown (b : bool) (clk : AlertClock) (st : State) :
  usub (ms_test clk) (lastAnomalyTime st) <= ANOMALY_COOLDOWN ->
  alertStep b clk st = (st, []).
Proof.
  intros H. unfold alertStep.
  destruct (Z.gtb_spec (usub (ms_test clk) (lastAnomalyTime st)) ANOMALY_COOLDOWN);
    [lia|].
  now rewrite andb_false_r.
Qed.

(** Outside the cooldown an Anomalous classification triggers. *)
Lemma alertStep_trigger (clk : AlertClock) (st : State) :
  usub (ms_test clk) (lastAnomalyTime st) > ANOMALY_COOLDOWN ->
  snd (alertStep true clk st) = [WsAnomaly (ms_stamp clk)] /\
  lastAnomalyTime (fst (alertStep true clk st)) = ms_latch clk /\
  anomalyDetected (fst (alertStep true clk st)) = true /\
  buzzerPin (fst (alertStep true clk st)) = true.
Proof.
  intros H. unfold alertStep.
  destruct (Z.gtb_spec (usub (ms_test clk) (lastAnomalyTime st)) ANOMALY_COOLDOWN);
    [|lia].
  simpl. auto.
Qed.

(** The last-trigger time after one step of the machine. *)
Lemma alertInputStep_last (inp : AlertInput) (st : State) :
  (snd (alertInputStep inp st) = [] /\
   lastAnomalyTime (fst (alertInputStep inp st)) = lastAnomalyTime st) \/
  (exists clk, inp = Classified true clk /\
     usub (ms_test clk) (lastAnomalyTime st) > ANOMALY_COOLDOWN /\
     snd (alertInputStep inp st) = [WsAnomaly (ms_stamp clk)] /\
     lastAnomalyTime (fst (alertInputStep inp st)) = ms_latch clk).
Proof.
  destruct inp as [b clk|now]; simpl.
  - unfold alertStep.
    destruct b; simpl; [|left; auto].
    destruct (Z.gtb_spec (usub (ms_test clk) (lastAnomalyTime st)) ANOMALY_COOLDOWN).
    + right. exists clk. simpl. repeat split; auto. lia.
    + left; auto.
  - left. split; [reflexivity|].
    unfold buzzerTimeout. destruct (_ && _); reflexivity.
Qed.

(** Once a trigger is recorded at [L], classifications whose readings
    stay within one cooldown of [L] are all absorbed. *)
Lemma alertRun_absorbed (inps : list AlertInput) :
  forall (st : State) (lo hi : Z),
  clocksWithin lo hi inps ->
  lastAnomalyTime st <= lo ->
  hi - lastAnomalyTime st <= ANOMALY_COOLDOWN ->
  hi - lastAnomalyTime st < 2 ^ 32 ->
  snd (alertRun inps st) = [] /\
  lastAnomalyTime (fst (alertRun inps st)) = lastAnomalyTime st.
Proof.
  induction inps as [|inp rest IH]; intros st lo hi Hc Hlo Hhi Hw.
  - simpl. auto.
  - cbn [alertRun fst snd].
    destruct inp as [b clk|now].
    + destruct Hc as (H1 & H2 & H3 & Hrest).
      cbn [alertInputStep].
      rewrite alertStep_in_cooldown by (rewrite usub_small; lia).
      cbn [fst snd app].
      apply (IH st (ms_latch clk) hi); auto; lia.
    + cbn [alertInputStep fst snd app].
      assert (Hl : lastAnomalyTime (buzzerTimeout now st) = lastAnomalyTime st)
        by (unfold buzzerTimeout; destruct (_ && _); reflexivity).
      destruct (IH (buzzerTimeout now st) lo hi) as [He Hl']; auto;
        try (rewrite Hl; auto).
      split; [exact He | now rewrite Hl', Hl].
Qed.

(** Classifications whose readings all lie within one cooldown
    duration produce at most one notification. *)
Lemma alertRun_at_most_one (inps : list AlertInput) :
  forall (st : State) (lo hi : Z),
  clocksWithin lo hi inps ->
  hi - lo <= ANOMALY_COOLDOWN ->
  (notifications (snd (alertRun inps st)) <= 1)%nat.
Proof.
  induction inps as [|inp rest IH]; intros st lo hi Hc Hhi.
  - simpl. unfold notifications. simpl. lia.
  - cbn [alertRun fst snd].
    destruct (alertInputStep_last inp st) as [[He Hl]|[clk [-> [Hgt [He Hl]]]]].
    + rewrite He. cbn [app].
      destruct inp as [b clk|now].
      * destruct Hc as (H1 & H2 & H3 & Hrest).
        apply (IH _ (ms_latch clk) hi); auto; lia.
      * apply (IH _ lo hi); auto.
    + destruct Hc as (H1 & H2 & H3 & Hrest).
      rewrite He.
      destruct (alertRun_absorbed rest (fst (alertInputStep (Classified true clk) st))
                  (ms_latch clk) hi) as [Hnil _]; auto; try (rewrite Hl; try lia).
      * unfold ANOMALY_COOLDOWN in *. lia.
      * rewrite Hnil. unfold notifications. simpl. lia.
Qed.

End DebouncerFacts.

(** C5 as stated fails: two Anomalous classifications 100 ms apart
    that arrive within the first cooldown after boot produce no
    notification at all, not exactly one. *)
Lemma two_anomalies_soon_after_boot :
  snd (alertRun [Classified true (clockAt 100); Classified true (clockAt 200)]
         (bootState Examples.twoDimModel 0)) = [] /\
  notifications
    (snd (alertRun [Classified true (clockAt 100); Classified true (clockAt 200)]
            (bootState Examples.twoDimModel 0))) = 0%nat.
Proof.
  split; reflexivity.
Qed.

(** C5, amended. An Anomalous (or any) classification arriving within
    [cooldownDuration] of the recorded last trigger changes nothing and
    notifies nobody; classifications whose clock readings lie within one
    cooldown duration produce at most one notification; and two
    Anomalous classifications 100 ms apart produce at most one
    notification - exactly one, that of the first, when the first
    arrives more than [cooldownDuration] after the recorded last
    trigger. *)
Theorem alert_debounce_cooldown :
  (forall (A : FloatArith) (b : bool) (clk : AlertClock) (st : State),
     usub (ms_test clk) (lastAnomalyTime st) <= ANOMALY_COOLDOWN ->
     alertStep b clk st = (st, [])) /\
  (forall (A : FloatArith) (inps : list AlertInput) (st : State) (lo hi : Z),
     clocksWithin lo hi inps ->
     hi - lo <= ANOMALY_COOLDOWN ->
     (notifications (snd (alertRun inps st)) <= 1)%nat) /\
  (forall (A : FloatArith) (st : State) (clk1 clk2 : AlertClock),
     ms_test clk1 <= ms_latch clk1 <= ms_test clk2 ->
     ms_test clk2 = ms_test clk1 + 100 ->
     let evs :=
       snd (alertRun [Classified true clk1; Classified true clk2] st) in
     (notifications evs <= 1)%nat /\
     (usub (ms_test clk1) (lastAnomalyTime st) > ANOMALY_COOLDOWN ->
      evs = [WsAnomaly (ms_stamp clk1)])).
Proof.
  split; [|split].
  - intros A b clk st. apply alertStep_in_cooldown.
  - intros A inps st lo hi. apply alertRun_at_most_one.
  - intros A st clk1 clk2 Hord H100 evs. subst evs.
    cbn [alertRun alertInputStep fst snd].
    rewrite app_nil_r.
    destruct (Z_gt_le_dec (usub (ms_test clk1) (lastAnomalyTime st))
                          ANOMALY_COOLDOWN) as [Hgt|Hle].
    + destruct (alertStep_trigger clk1 st Hgt) as (He & Hl & _).
      rewrite He.
      rewrite (alertStep_in_cooldown true clk2).
      2:{ rewrite Hl, usub_small; unfold ANOMALY_COOLDOWN; lia. }
      split; [unfold notifications; simpl; lia | intros _; reflexivity].
    + rewrite (alertStep_in_cooldown true clk1 st Hle).
      cbn [fst snd app].
      split; [|intros Hgt; lia].
      destruct (Z_gt_le_dec (usub (ms_test clk2) (lastAnomalyTime st))
                            ANOMALY_COOLDOWN) as [Hgt2|Hle2].
      * destruct (alertStep_trigger clk2 st Hgt2) as (He & _).
        rewrite He. unfold notifications; simpl; lia.
      * rewrite (alertStep_in_cooldown true clk2 st Hle2).
        unfold notifications; simpl; lia.
Qed.

(** C5, at two Anomalous classifications at 5000 ms and 5100 ms after a
    boot at which no trigger is recorded. *)
Lemma alert_debounce_cooldown_witness :
  (notifications
     (snd (alertRun [Classified true (clockAt 5000); Classified true (clockAt 5100)]
             (bootState Examples.twoDimModel 0))) <= 1)%nat /\
  (usub 5000 0 > ANOMALY_COOLDOWN ->
   snd (alertRun [Classified true (clockAt 5000); Classified true (clockAt 5100)]
          (bootState Examples.twoDimModel 0)) = [WsAnomaly 5000]).
Proof.
  apply (proj2 (proj2 alert_debounce_cooldown) IEEE.arith
           (bootState Examples.twoDimModel 0) (clockAt 5000) (clockAt 5100)).
  - simpl. lia.
  - reflexivity.
Defined.

(** ** The loop: no undefined behaviour, and the alert after boot *)

Section LoopFacts.
Context {A : FloatArith} {E : LibmExp A}.

Lemma alertStep_frame (b : bool) (clk : AlertClock) (st : State) :
  ecgBuffer (fst (alertStep b clk st)) = ecgBuffer st /\
  bufferIndex (fst (alertStep b clk st)) = bufferIndex st /\
  svmModel (fst (alertStep b clk st)) = svmModel st.
Proof.
  unfold alertStep. destruct (_ && _); simpl; auto.
Qed.

Lemma alertStep_never_triggered (b : bool) (clk : AlertClock) (st : State) :
  neverTriggered st ->
  0 <= ms_test clk <= ANOMALY_COOLDOWN ->
  alertStep b clk st = (st, []).
Proof.
  intros (Hl & _) Ht. apply alertStep_in_cooldown.
  rewrite Hl, usub_small; unfold ANOMALY_COOLDOWN in *; lia.
Qed.

(** [processECGData] completes on a buffer in order and a well-shaped
    model: it smooths the rate and hands the classifier's decision to
    the alert block. *)
Lemma processECGData_total (clk : AlertClock) (st : State) :
  pipelineOk st ->
  exists h b,
    processECGData clk st = Some (alertStep b clk (setHeartRate h st)) /\
    detectAnomaly (svmModel st) (chronological st) = Some b /\
    h = smoothHeartRate (heartRate st)
          (bpmOfPeaks (spec_peakCount (chronological st))).
Proof.
  intros [[Hlen Hidx] Hm]. pose proof ECG_BUFFER_SIZE_pos as HN.
  unfold processECGData.
  rewrite reconstructWindow_rotation by auto.
  fold (chronological st). cbn [bind].
  unfold calculateHeartRate. rewrite countPeaks_refines. cbn [bind].
  assert (Hw : zlen (chronological st) = ECG_BUFFER_SIZE).
  { unfold chronological, zlen in *.
    rewrite length_app, length_skipn, length_firstn. lia. }
  pose proof (detectAnomaly_refines (svmModel st) (chronological st)
                (wellShaped_longEnough _ Hm) Hw) as Hd.
  cbn [setHeartRate svmModel]. rewrite Hd. cbn [bind].
  eexists. eexists. repeat split.
Qed.

(** The sampling branch completes and keeps the pipeline in order; while
    no trigger is recorded and the clock has not passed the cooldown it
    leaves the alert state alone and notifies nobody. *)
Lemma sampleTick_spec (ecgValue : Z) (clk : AlertClock) (st : State) :
  pipelineOk st ->
  exists st' evs,
    sampleTick ecgValue clk st = Some (st', evs) /\
    pipelineOk st' /\
    (neverTriggered st -> 0 <= ms_test clk <= ANOMALY_COOLDOWN ->
     neverTriggered st' /\ notifications evs = 0%nat).
Proof.
  intros [Hbuf Hm].
  destruct (push_step (adcVoltage ecgValue) st Hbuf)
    as [st1 [Hp [Hok1 [_ [_ Hm1]]]]].
  destruct (bufferStore_ok (adcVoltage ecgValue) st Hbuf)
    as [st1' [Hst [_ [_ [_ [_ [Had [Hla Hbz]]]]]]]].
  assert (st1' = st1).
  { unfold push in Hp. rewrite Hst in Hp. cbn [bind] in Hp.
    destruct (bufferIndex st1' =? 0); [|now inversion Hp].
    apply bind_Some in Hp as [w [_ Hp]]. now inversion Hp. }
  subst st1'.
  assert (Hnt1 : neverTriggered st -> neverTriggered st1).
  { intros (H1 & H2 & H3). unfold neverTriggered. now rewrite Hla, Had, Hbz. }
  rewrite (sampleTick_push _ clk _ _ _ Hp). cbv zeta.
  assert (Hstream : forall evs : list Event,
            notifications
              ((if Z.rem (bufferIndex st1) 5 =? 0
                then [WsEcg (adcVoltage ecgValue)] else []) ++ evs)
            = notifications evs).
  { intros evs. destruct (Z.rem (bufferIndex st1) 5 =? 0); reflexivity. }
  destruct (bufferIndex st1 =? 0).
  - assert (Hpk : pipelineOk st1) by (split; [exact Hok1 | now rewrite Hm1]).
    destruct (processECGData_total clk st1 Hpk) as [h [b [Hproc _]]].
    rewrite Hproc. cbn [bind fst snd].
    destruct (alertStep_frame b clk (setHeartRate h st1)) as (Fb & Fi & Fm).
    eexists. eexists. split; [reflexivity|]. split.
    + split; [split|]; rewrite ?Fb, ?Fi, ?Fm; cbn [setHeartRate ecgBuffer bufferIndex svmModel];
        try apply Hok1. now rewrite Hm1.
    + intros Hnt Hclk. apply Hnt1 in Hnt. rewrite Hstream.
      rewrite (alertStep_never_triggered b clk (setHeartRate h st1) Hnt Hclk).
      split; [exact Hnt | reflexivity].
  - eexists. eexists. split; [reflexivity|]. split.
    + split; [exact Hok1 | now rewrite Hm1].
    + intros Hnt _. split; [auto|].
      destruct (Z.rem (bufferIndex st1) 5 =? 0); reflexivity.
Qed.

Lemma buzzerTimeout_spec (now : Z) (st : State) :
  (pipelineOk st -> pipelineOk (buzzerTimeout now st)) /\
  (neverTriggered st -> buzzerTimeout now st = st).
Proof.
  unfold buzzerTimeout. split.
  - destruct (_ && _); auto.
  - intros (_ & Han & _). now rewrite Han.
Qed.

Lemma calorieUpdate_spec (inp : LoopInput) (st : State) :
  (pipelineOk st -> pipelineOk (fst (calorieUpdate inp st))) /\
  (neverTriggered st -> neverTriggered (fst (calorieUpdate inp st))) /\
  notifications (snd (calorieUpdate inp st)) = 0%nat.
Proof.
  unfold calorieUpdate. destruct (_ >=? _); simpl; auto.
Qed.

(** One iteration of [loop]. *)
Lemma loop_spec (inp : LoopInput) (st : State) :
  pipelineOk st ->
  exists st' evs,
    loop inp st = Some (st', evs) /\
    pipelineOk st' /\
    (neverTriggered st -> 0 <= ms_test (alertClock inp) <= ANOMALY_COOLDOWN ->
     neverTriggered st' /\ notifications evs = 0%nat).
Proof.
  intros Hok. unfold loop.
  destruct (leadsOff inp).
  { exists st, [WsAlert]. split; [reflexivity|]. split; [exact Hok|].
    intros Hnt _. split; [exact Hnt | reflexivity]. }
  assert (H1 : exists st1 evs1,
            (if usub (us_now inp) (lastSampleTime st) >=? SAMPLE_INTERVAL
             then sampleTick (ecgValue inp) (alertClock inp)
                    (setLastSampleTime (us_now inp) st)
             else Some (st, [])) = Some (st1, evs1) /\
            pipelineOk st1 /\
            (neverTriggered st ->
             0 <= ms_test (alertClock inp) <= ANOMALY_COOLDOWN ->
             neverTriggered st1 /\ notifications evs1 = 0%nat)).
  { destruct (_ >=? _).
    - destruct (sampleTick_spec (ecgValue inp) (alertClock inp)
                  (setLastSampleTime (us_now inp) st) Hok)
        as [s1 [e1 [Ha [Hb Hc]]]].
      exists s1, e1. split; [exact Ha|]. split; [exact Hb | exact Hc].
    - exists st, []. split; [reflexivity|]. split; [exact Hok|].
      intros Hnt _. split; [exact Hnt | reflexivity]. }
  destruct H1 as [st1 [evs1 [Hr1 [Hok1 Hq1]]]].
  rewrite Hr1. cbn [bind fst snd].
  destruct (buzzerTimeout_spec (ms_buzzer inp) st1) as [Hb1 Hb2].
  destruct (calorieUpdate_spec inp (buzzerTimeout (ms_buzzer inp) st1))
    as [Hc1 [Hc2 Hc3]].
  eexists. eexists. split; [reflexivity|]. split; [auto|].
  intros Hnt Hclk. destruct (Hq1 Hnt Hclk) as [Hnt1 Hn1].
  split.
  - apply Hc2. now rewrite Hb2.
  - unfold notifications in *. rewrite filter_app, length_app, Hn1, Hc3.
    reflexivity.
Qed.

End LoopFacts.

Lemma notifications_zero {A : FloatArith} (evs : list Event) :
  notifications evs = 0%nat -> forall t, ~ In (WsAnomaly t) evs.
Proof.
  unfold notifications. intros H t Hin.
  assert (Hf : In (WsAnomaly t) (filter isAnomalyEvent evs))
    by (apply filter_In; split; [exact Hin | reflexivity]).
  destruct (filter isAnomalyEvent evs); [exact Hf | discriminate].
Qed.

(** Any run of [loop] from a state in order completes; while no trigger
    is recorded and every alert test reads a clock not past the
    cooldown, none gets recorded. *)
Lemma run_spec {A : FloatArith} {E : LibmExp A} (inps : list LoopInput) :
  forall st : State,
  pipelineOk st ->
  exists st' evs,
    run inps st = Some (st', evs) /\
    pipelineOk st' /\
    (neverTriggered st ->
     Forall (fun inp => 0 <= ms_test (alertClock inp) <= ANOMALY_COOLDOWN) inps ->
     neverTriggered st' /\ notifications evs = 0%nat).
Proof.
  induction inps as [|inp rest IH]; intros st Hok.
  - exists st, []. split; [reflexivity|]. split; [exact Hok|].
    intros Hnt _. split; [exact Hnt | reflexivity].
  - destruct (loop_spec inp st Hok) as [st1 [evs1 [Hl [Hok1 Hq1]]]].
    destruct (IH st1 Hok1) as [st2 [evs2 [Hr [Hok2 Hq2]]]].
    exists st2, (evs1 ++ evs2).
    cbn [run]. rewrite Hl. cbn [bind fst snd]. rewrite Hr. cbn [bind fst snd].
    split; [reflexivity|]. split; [exact Hok2|].
    intros Hnt Hall. inversion Hall as [|? ? Hhd Htl]; subst.
    destruct (Hq1 Hnt Hhd) as [Hnt1 Hn1].
    destruct (Hq2 Hnt1 Htl) as [Hnt2 Hn2].
    split; [exact Hnt2|].
    unfold notifications in *. now rewrite filter_app, length_app, Hn1, Hn2.
Qed.

(** C10. From boot, with a well-shaped model, any run of [loop] whose
    alert tests read a clock not past [cooldownDuration] completes with
    no trigger recorded, the alert off, and no anomaly notification
    sent - whatever the windows classify as. *)
Theorem no_alert_before_first_cooldown {A : FloatArith} {E : LibmExp A}
    (m : SVMModel) (now : Z) (inps : list LoopInput) :
  wellShaped m ->
  Forall (fun inp => 0 <= ms_test (alertClock inp) <= ANOMALY_COOLDOWN) inps ->
  exists st' evs,
    run inps (bootState m now) = Some (st', evs) /\
    lastAnomalyTime st' = 0 /\
    anomalyDetected st' = false /\
    buzzerPin st' = false /\
    notifications evs = 0%nat /\
    forall t, ~ In (WsAnomaly t) evs.
Proof.
  intros Hm Hall.
  assert (Hok : pipelineOk (bootState m now))
    by (split; [apply bootState_bufferOk | exact Hm]).
  destruct (run_spec inps (bootState m now) Hok) as [st' [evs [Hr [_ Hq]]]].
  destruct Hq as [(H1 & H2 & H3) Hn]; [repeat split | exact Hall |].
  exists st', evs. repeat split; auto.
  now apply notifications_zero.
Qed.

(** With the model of [Examples.alwaysAnomalousModel] every window of
    [ECG_BUFFER_SIZE] samples is classified Anomalous. *)
Lemma alwaysAnomalousModel_anomalous (w : list (@float Exact.arith)) :
  zlen w = ECG_BUFFER_SIZE ->
  @detectAnomaly Exact.arith Exact.libm Examples.alwaysAnomalousModel w
  = Some true.
Proof.
  intros Hw.
  assert (Hm : wellShaped Examples.alwaysAnomalousModel)
    by (repeat split; try reflexivity; vm_compute; discriminate).
  rewrite (@detectAnomaly_refines Exact.arith Exact.libm
             Examples.alwaysAnomalousModel w (wellShaped_longEnough _ Hm) Hw).
  f_equal. unfold spec_score.
  cbn [Examples.alwaysAnomalousModel numSupportVectors bias].
  change (Z.to_nat 0) with 0%nat. cbn [seq fold_left].
  apply Rltb_true. simpl. lra.
Qed.

(** C10, at the first 140 iterations after boot with a model for which
    the window completed at 420 ms is Anomalous. *)
Lemma no_alert_before_first_cooldown_witness :
  exists st' evs,
    @run Exact.arith Exact.libm Examples.bootInputs
      (bootState Examples.alwaysAnomalousModel 0) = Some (st', evs) /\
    lastAnomalyTime st' = 0 /\
    anomalyDetected st' = false /\
    buzzerPin st' = false /\
    notifications evs = 0%nat /\
    forall t, ~ In (WsAnomaly t) evs.
Proof.
  apply (@no_alert_before_first_cooldown Exact.arith Exact.libm
           Examples.alwaysAnomalousModel 0 Examples.bootInputs).
  - repeat split; try reflexivity; vm_compute; discriminate.
  - unfold Examples.bootInputs. apply Forall_forall. intros inp Hin.
    apply in_map_iff in Hin as [k [<- Hk]]. apply in_seq in Hk.
    cbn [alertClock ms_test clockAt]. unfold ANOMALY_COOLDOWN.
    split; [apply Z.div_pos; lia | apply Z.div_le_upper_bound; lia].
Defined.

(** ** Start-up and the model *)


Section SetupFacts.
Context {A : FloatArith}.





End SetupFacts.



